(** * analyze-repo.py: the contributor attribution aggregator

    A shallow embedding of [GitContributorAnalyzer] (src/analyze-repo.py)
    and the properties its specification states about it.

    Conventions of the embedding:
    - a Python [str] is a [string], standing for the UTF-8 text of the
      [str]: the characters the code looks for ('/', '\', tab, NUL,
      newline, '<', '>', '@', ',', '.') are ASCII, and so are the digits
      and the white space of git's output, on which [str.isdigit],
      [str.strip] and [int] are modelled;
    - a Python [int] is a [Z];
    - [None] is [None]: a value the code may leave at [None] has an
      [option] type, and truthiness ([if x:], [x or y]) is written out;
    - a [dict] is a [gmap], a [set] a [gset]: Python compares both
      regardless of the order of insertion, which is not modelled;
    - an exception is a value of [exn]; code that may raise returns a sum;
    - what the program gets from outside (the git subprocesses, the library
      functions [fnmatch.fnmatch], [email.utils.parseaddr],
      [datetime.fromtimestamp(..).strftime] and [datetime.now], the number
      of processors) is a section variable, and the order in which the
      worker pool completes its tasks an argument of [analyze_repository];
    - the output guarded by the DEBUG environment variable is left out.

    The class defines [analyze_repository] twice; the second definition
    replaces the first, and is the one modelled. *)

From Stdlib Require Import ZArith Ascii String List Bool Lia Permutation.
From stdpp Require Import base option list gmap strings sorting.

Local Open Scope Z_scope.

(** ** Python's string primitives used by the script *)

Module Py.

(** [x.startswith(p)] *)
Definition startswith (s p : string) : bool := String.prefix p s.

(** [x.endswith(p)] *)
Definition endswith (s p : string) : bool :=
  String.prefix (String.rev p) (String.rev s).

(** [sub in s] *)
Fixpoint contains (sub s : string) : bool :=
  String.prefix sub s ||
  match s with
  | EmptyString => false
  | String _ s' => contains sub s'
  end.

(** [c in chars], for a character [c] *)
Fixpoint mem (c : ascii) (chars : string) : bool :=
  match chars with
  | EmptyString => false
  | String d chars' => Ascii.eqb c d || mem c chars'
  end.

Fixpoint lstrip_by (p : ascii -> bool) (s : string) : string :=
  match s with
  | EmptyString => EmptyString
  | String c s' => if p c then lstrip_by p s' else s
  end.

Fixpoint rstrip_by (p : ascii -> bool) (s : string) : string :=
  match s with
  | EmptyString => EmptyString
  | String c s' =>
      match rstrip_by p s' with
      | EmptyString => if p c then EmptyString else String c EmptyString
      | r => String c r
      end
  end.

(** [s.strip(chars)] *)
Definition strip (chars s : string) : string :=
  rstrip_by (fun c => mem c chars) (lstrip_by (fun c => mem c chars) s).

(** The ASCII characters for which [str.isspace] holds. *)
Definition isspace (c : ascii) : bool :=
  let n := N_of_ascii c in
  ((9 <=? n) && (n <=? 13) || (28 <=? n) && (n <=? 32))%N.

(** [s.strip()] *)
Definition strip_ws (s : string) : string :=
  rstrip_by isspace (lstrip_by isspace s).

(** [s.replace(a, b)] for one-character [a] and [b] *)
Fixpoint replace (a b : ascii) (s : string) : string :=
  match s with
  | EmptyString => EmptyString
  | String c s' => String (if Ascii.eqb c a then b else c) (replace a b s')
  end.

(** [s.split(sep)] for a one-character [sep]: never the empty list. *)
Fixpoint split (sep : ascii) (s : string) : list string :=
  match s with
  | EmptyString => [EmptyString]
  | String c s' =>
      if Ascii.eqb c sep then EmptyString :: split sep s'
      else match split sep s' with
           | w :: ws => String c w :: ws
           | [] => [String c EmptyString]
           end
  end.

(** [s[n:]] *)
Fixpoint drop (n : nat) (s : string) : string :=
  match n, s with
  | O, _ => s
  | S n', String _ s' => drop n' s'
  | S _, EmptyString => EmptyString
  end.

(** [c.isdigit()] on ASCII text *)
Definition isdigit (c : ascii) : bool :=
  let n := N_of_ascii c in ((48 <=? n) && (n <=? 57))%N.

Definition digit_val (c : ascii) : Z := Z.of_N (N_of_ascii c) - 48.

(** The digits of a decimal literal, most significant first, with the
    single underscores [int] allows between two digits.  [acc] is the
    value read so far, [after_digit] tells whether the previous character
    was a digit. *)
Fixpoint int_digits (acc : Z) (after_digit : bool) (s : string) : option Z :=
  match s with
  | EmptyString => if after_digit then Some acc else None
  | String c s' =>
      if isdigit c then int_digits (10 * acc + digit_val c) true s'
      else if Ascii.eqb c "_" then
             (if after_digit then int_digits acc false s' else None)
      else None
  end.

(** [int(s)]: [None] stands for the [ValueError].  Surrounding whitespace
    is dropped, one sign is allowed, then a decimal literal.  The bound that
    recent interpreters put on the number of digits is not modelled. *)
Definition int (s : string) : option Z :=
  match strip_ws s with
  | EmptyString => None
  | String c s' =>
      if Ascii.eqb c "-" then Z.opp <$> int_digits 0 false s'
      else if Ascii.eqb c "+" then int_digits 0 false s'
      else int_digits 0 false (String c s')
  end.

(** Truthiness of a value that is a [str] or [None]. *)
Definition truthy (o : option string) : bool :=
  match o with
  | Some (String _ _) => true
  | _ => false
  end.

(** [x or y] on such values *)
Definition or_ (x y : option string) : option string :=
  if truthy x then x else y.

Definition nonempty (s : string) : bool :=
  match s with EmptyString => false | String _ _ => true end.

End Py.

(** ** Data model *)

Record LineInfo := mkLineInfo {
  content : string;
  line_number : Z;
  last_modified : option string
}.

Record FileContribution := mkFileContribution {
  current_lines : list LineInfo;
  historical_lines : Z;
  fc_last_modified : option string;
  committer_email : option string
}.

(** [FileContribution()] *)
Definition FileContribution_init : FileContribution :=
  {| current_lines := []; historical_lines := 0;
     fc_last_modified := None; committer_email := None |}.

(** An author key of the dictionaries: the display name, or Python's
    [None] when the log walk meets a count before any author line. *)
Abbreviation author := (option string).

(** One author's entry in a per-file result: the tuple
    [(current lines, historical count, last modified, email)], a current
    line being [(line number, content, date)]. *)
Abbreviation blame_line := (Z * string * option string)%type.
Abbreviation file_entry :=
  (list (Z * string * option string) * Z * option string * option string)%type.
Abbreviation file_results := (gmap (option string) file_entry).

Record GitContributorAnalyzer := mkAnalyzer {
  repo_path : string;
  exclude_commits : list string;
  exclude_paths : list string;
  exclude_patterns : list string;
  contributor_stats : gmap (option string) (gmap string FileContribution);
  contributor_emails : gmap (option string) (gset string);
  contributor_companies : gmap (option string) (gset string)
}.

(** [GitContributorAnalyzer.__init__]; an argument left at [None] is an
    empty list. *)
Definition init (repo_path : string)
    (exclude_commits exclude_paths exclude_patterns : option (list string))
  : GitContributorAnalyzer :=
  {| repo_path := repo_path;
     exclude_commits := map Py.strip_ws (default [] exclude_commits);
     exclude_paths :=
       map (Py.strip "/")
           (List.filter (fun p => Py.nonempty (Py.strip_ws p)) (default [] exclude_paths));
     exclude_patterns := default [] exclude_patterns;
     contributor_stats := ∅;
     contributor_emails := ∅;
     contributor_companies := ∅ |}.

Definition get_revision_range (self : GitContributorAnalyzer) : list string :=
  match exclude_commits self with
  | [] => ["HEAD"]
  | cs => "HEAD" :: map (fun commit => "^" +:+ commit) cs
  end.

(** ** Exceptions, and the coordinator's observable actions *)

Inductive exn :=
| CalledProcessError   (* a git command exited with a non-zero status *)
| ValueError
| TypeError
| OtherError (what : string).   (* any other subclass of [Exception] *)

Inductive message :=
| ErrorListing                       (* "Error listing repository files: ..." *)
| ErrorProcessing (file_path : string) (e : exn)
                                     (* "Error processing <file>: ..." *)
| Processing (files cores : nat)     (* "Processing n files using c cores..." *)
| Processed (i n : nat)              (* "Processed i/n files" *)
| AnalysisComplete                   (* "Analysis complete!" *)
| ReportWritten (output_file : string).
                                     (* "Detailed report written to ..." *)

(** The argument tuple of [process_file]: repository, revision arguments,
    file. *)
Abbreviation process_args := (string * list string * string)%type.

(** ** The exclusion filter *)

(** The three tests of one exclude path against the normalized path. *)
Definition path_hit (normalized_path exclude_path : string) : bool :=
  String.eqb normalized_path exclude_path
  || Py.startswith normalized_path (exclude_path +:+ "/")
  || Py.contains ("/" +:+ exclude_path +:+ "/") ("/" +:+ normalized_path +:+ "/").

(** The loop over [self.exclude_paths].  It rebinds [normalized_path] on
    each round, so the path it leaves behind has its backslashes replaced
    only when the loop body ran at least once. *)
Fixpoint exclude_paths_loop (exclude_paths : list string) (normalized_path : string)
  : bool * string :=
  match exclude_paths with
  | [] => (false, normalized_path)
  | exclude_path :: rest =>
      let exclude_path := Py.replace "\" "/" exclude_path in
      let normalized_path := Py.replace "\" "/" normalized_path in
      if path_hit normalized_path exclude_path then (true, normalized_path)
      else exclude_paths_loop rest normalized_path
  end.

(** ** Parsing the blame output (process_file, first loop) *)

Record blame_state := mkBlame {
  b_author : option string;      (* current_author *)
  b_line_num : Z;                (* current_line_num *)
  b_content : option string;     (* current_content *)
  b_date : option string;        (* current_date *)
  b_email : option string;       (* current_email *)
  b_result : file_results        (* result *)
}.

(** [result[key]] on the [defaultdict]: a missing key reads as the default
    tuple [([], 0, None, None)]. *)
Definition result_get (result : file_results) (key : author) : file_entry :=
  default ([], 0, None, None) (result !! key).

Definition blame_init : blame_state :=
  {| b_author := None; b_line_num := 0; b_content := None;
     b_date := None; b_email := None; b_result := ∅ |}.

Section Blame.

(** [datetime.fromtimestamp(t).strftime('%Y-%m-%d')] in the local time
    zone; [None] when [fromtimestamp] raises (a timestamp out of range). *)
Variable format_date : Z -> option string.

(** One round of [for line in blame_output.split('\n')]. *)
Definition blame_step (st : blame_state) (line : string) : exn + blame_state :=
  if Py.startswith line "author " then
    inr (mkBlame (Some (Py.drop 7 line)) (b_line_num st) (b_content st)
                 (b_date st) (b_email st) (b_result st))
  else if Py.startswith line "author-mail " then
    inr (mkBlame (b_author st) (b_line_num st) (b_content st) (b_date st)
                 (Some (Py.strip "<>" (Py.drop 12 line))) (b_result st))
  else if Py.startswith line "author-time " then
    match Py.int (Py.drop 12 line) with
    | None => inl ValueError
    | Some t =>
        match format_date t with
        | None => inl (OtherError "fromtimestamp")
        | Some d =>
            inr (mkBlame (b_author st) (b_line_num st) (b_content st) (Some d)
                         (b_email st) (b_result st))
        end
    end
  else if Py.startswith line (String "009" "") then
    let current_content := Py.drop 1 line in
    if Py.truthy (b_author st) && Py.nonempty current_content then
      let '(lines, count, _, email) := result_get (b_result st) (b_author st) in
      let lines := lines ++ [(b_line_num st, current_content, b_date st)] in
      inr (mkBlame (b_author st) (b_line_num st + 1) (Some current_content)
                   (b_date st) (b_email st)
                   (<[b_author st := (lines, count, b_date st, b_email st)]> (b_result st)))
    else
      inr (mkBlame (b_author st) (b_line_num st) (Some current_content)
                   (b_date st) (b_email st) (b_result st))
  else inr st.

Fixpoint blame_walk (st : blame_state) (lines : list string) : exn + blame_state :=
  match lines with
  | [] => inr st
  | line :: rest =>
      match blame_step st line with
      | inl e => inl e
      | inr st' => blame_walk st' rest
      end
  end.

End Blame.

(** ** Parsing the log output (process_file, second loop) *)

Record log_state := mkLog {
  l_author : option string;      (* current_author *)
  l_email : option string;       (* current_email *)
  l_result : file_results        (* result *)
}.

(** [author_info[1] if len(author_info) > 1 else None] *)
Definition second (author_info : list string) : option string :=
  match author_info with
  | _ :: e :: _ => Some e
  | _ => None
  end.

(** One round of [for line in log_output.split('\n')]. *)
Definition log_step (st : log_state) (line : string) : log_state :=
  match Py.strip_ws line, line with
  | EmptyString, _ | _, EmptyString => st                       (* continue *)
  | _, String c _ =>
      if negb (Py.isdigit c) then
        let author_info := Py.split "000" line in
        mkLog (head author_info) (second author_info) (l_result st)
      else
        match Py.split "009" line with
        | [additions; deletions; _] =>
            if negb (String.eqb additions "-") then
              (* reading [result[current_author]] creates the entry *)
              let '(lines, count, date, email) := result_get (l_result st) (l_author st) in
              match Py.int additions with
              | Some n =>
                  mkLog (l_author st) (l_email st)
                        (<[l_author st := (lines, count + n, date,
                                           Py.or_ (l_email st) email)]> (l_result st))
              | None =>                                         (* ValueError *)
                  mkLog (l_author st) (l_email st)
                        (<[l_author st := (lines, count, date, email)]> (l_result st))
              end
            else st
        | _ => st                                               (* ValueError *)
        end
  end.

Definition log_walk (st : log_state) (lines : list string) : log_state :=
  foldl log_step st lines.

(** ** Reports *)

Record json_file := mkJsonFile {
  jf_current_lines : Z;
  jf_historical_lines : Z;
  jf_last_modified : option string
}.

Record json_contributor := mkJsonContributor {
  emails : gset string;
  companies : gset string;
  total_current_lines : Z;
  total_historical_lines : Z;
  files : gmap string json_file
}.

Record json_report := mkJsonReport {
  generated_at : string;
  excluded_commits : list string;
  excluded_paths : list string;
  excluded_patterns : list string;
  contributors : gmap (option string) json_contributor
}.

(** A row of the CSV report: 'Contributor Name', 'Email Addresses',
    'Total Lines Contributed', 'Current Lines'. *)
Record csv_row := mkCsvRow {
  csv_name : option string;
  csv_emails : string;
  csv_total_lines : Z;
  csv_current_lines : Z
}.

(** The text report, as far as the totals go: one entry
    [(author, current_total, historical_total)] per contributor, in the
    order the contributors are written. The per-file sections with their
    sample lines are modelled apart, by [current_section] and
    [historical_section]. *)
Abbreviation text_entry := (option string * Z * Z)%type.

Inductive report :=
| JsonReport (doc : json_report)
| CsvReport (rows : list csv_row)
| TextReport (entries : list (option string * Z * Z)).

Inductive event :=
| Print (m : message)
| WriteFile (output_file : string) (doc : report).

(** ** Computations that print, write files and may raise *)

Definition M (A : Type) : Type := (list event * (exn + A))%type.

#[global] Instance M_ret : MRet M := fun A a => ([], inr a).

#[global] Instance M_bind : MBind M := fun A B k m =>
  match m with
  | (t, inl e) => (t, inl e)
  | (t, inr a) => let '(t', r) := k a in (t ++ t', r)
  end.

Definition raise {A} (e : exn) : M A := ([], inl e).
Definition emit (ev : event) : M unit := ([ev], inr tt).

Definition trace {A} (m : M A) : list event := fst m.
Definition outcome {A} (m : M A) : exn + A := snd m.

(** [sum(...)] over a list of integers. *)
Definition py_sum (l : list Z) : Z := foldl Z.add 0 l.

(** [len(x)] *)
Definition len {A} (l : list A) : Z := Z.of_nat (length l).

(** [d.values()] and [d.keys()] *)
Definition values {K V} `{Countable K} (d : gmap K V) : list V :=
  (map_to_list d).*2.
Definition keys {K V} `{Countable K} (d : gmap K V) : list K :=
  (map_to_list d).*1.

(** [sorted(names)] on author keys: comparing [None] with anything raises
    [TypeError]; a list of at most one key is returned without any
    comparison. *)
Definition sorted_authors (names : list (option string)) : exn + list (option string) :=
  match names with
  | [] | [_] => inr names
  | _ =>
      match mapM (M := option) id names with
      | Some l => inr (Some <$> merge_sort String.le l)
      | None => inl TypeError
      end
  end.

(** The order of the text report: [key=lambda x: x[1], reverse=True]. *)
Definition by_current_desc (x y : option string * Z * Z) : Prop := y.1.2 ≤ x.1.2.

#[global] Instance by_current_desc_dec : RelDecision by_current_desc.
Proof. intros x y. unfold by_current_desc. apply _. Defined.

(** ** The program *)

(** The parsed command line ([args] in [main]). *)
Inductive Format := txt | json | csv.

Definition format_name (f : Format) : string :=
  match f with txt => "txt" | json => "json" | csv => "csv" end.

Record Args := mkArgs {
  a_repo_path : string;
  a_extensions : option string;
  a_exclude_commits : option string;
  a_exclude_paths : option string;
  a_exclude_patterns : option string;
  a_output : string;
  a_format : Format;
  a_debug : bool;
  a_no_sample_code : bool
}.

Section Program.

(** The standard library. *)
Variable fnmatch : string -> string -> bool.   (* fnmatch.fnmatch name pat *)
Variable parseaddr : string -> string.         (* email.utils.parseaddr(s)[1] *)
Variable format_date : Z -> option string.
Variable cpu_count : nat.                      (* multiprocessing.cpu_count() *)
Variable now : string.                         (* datetime.now().isoformat() *)

(** The git commands, by [subprocess.check_output]: the text they print,
    or the exception raised. *)
Variable git_ls_files : string -> exn + string.
Variable git_rev_list : string * list string * string -> exn + string.
Variable git_blame : string * list string * string -> exn + string.
Variable git_log : string * list string * string -> exn + string.

Definition should_exclude_file (self : GitContributorAnalyzer)
    (file_path : string) : bool :=
  let normalized_path := Py.strip "/" file_path in
  let '(hit, normalized_path) :=
    exclude_paths_loop (exclude_paths self) normalized_path in
  if hit then true
  else existsb (fun pattern => fnmatch normalized_path pattern)
               (exclude_patterns self).

Definition extract_email_domain (email : string) : option string :=
  let email_addr := parseaddr email in
  if Py.contains "@" email_addr then second (Py.split "@" email_addr)
  else None.

(** The body of [process_file] inside its outer [try]. *)
Definition process_file_body (args : process_args) : exn + file_results :=
  match git_rev_list args with
  | inl CalledProcessError => inr ∅                  (* return file_path, {} *)
  | inl e => inl e
  | inr _ =>
      match git_blame args with
      | inl CalledProcessError => inr ∅              (* return file_path, {} *)
      | inl e => inl e
      | inr blame_output =>
          match blame_walk format_date blame_init (Py.split "010" blame_output) with
          | inl e => inl e
          | inr st =>
              match git_log args with
              | inl e => inl e
              | inr log_output =>
                  inr (l_result (log_walk (mkLog None None (b_result st))
                                          (Py.split "010" log_output)))
              end
          end
      end
  end.

(** [process_file]: what the worker prints, and the pair it returns. *)
Definition process_file (args : process_args)
  : list message * (string * file_results) :=
  let file_path := args.2 in
  match process_file_body args with
  | inl e => ([ErrorProcessing file_path e], (file_path, ∅))
  | inr result => ([], (file_path, result))
  end.

(** The body of [for author, (...) in file_results.items()]. *)
Definition merge_author (file_path : string) (self : GitContributorAnalyzer)
    (item : option string * file_entry) : GitContributorAnalyzer :=
  let '(author, (current_lines_, historical_count, last_modified_, email)) := item in
  let by_file := default ∅ (contributor_stats self !! author) in
  let contribution := default FileContribution_init (by_file !! file_path) in
  let contribution :=
    {| historical_lines := historical_count;
       fc_last_modified := last_modified_;
       committer_email := email;
       current_lines :=
         current_lines contribution ++
         map (fun '(line_num, content, date) => mkLineInfo content line_num date)
             current_lines_ |} in
  let stats := <[author := <[file_path := contribution]> by_file]> (contributor_stats self) in
  match email with
  | Some (String _ _ as e) =>
      let emails :=
        <[author := {[e]} ∪ default ∅ (contributor_emails self !! author)]>
          (contributor_emails self) in
      let companies :=
        match extract_email_domain e with
        | Some (String _ _ as domain) =>
            <[author := {[domain]} ∪ default ∅ (contributor_companies self !! author)]>
              (contributor_companies self)
        | _ => contributor_companies self
        end in
      mkAnalyzer (repo_path self) (exclude_commits self) (exclude_paths self)
                 (exclude_patterns self) stats emails companies
  | _ =>
      mkAnalyzer (repo_path self) (exclude_commits self) (exclude_paths self)
                 (exclude_patterns self) stats (contributor_emails self)
                 (contributor_companies self)
  end.

Definition merge_file (self : GitContributorAnalyzer)
    (r : string * file_results) : GitContributorAnalyzer :=
  foldl (merge_author r.1) self (map_to_list r.2).

(** The collecting loop: [i] counts the results from 1. *)
Fixpoint collect (n i : nat) (self : GitContributorAnalyzer)
    (results : list (string * file_results)) : M GitContributorAnalyzer :=
  match results with
  | [] => mret self
  | r :: rest =>
      emit (Print (Processed i n));;
      collect n (S i) (merge_file self r) rest
  end.

(** The file filter of [analyze_repository]. *)
Definition keep_file (self : GitContributorAnalyzer)
    (file_extensions : option (gset string)) (f : string) : bool :=
  Py.nonempty f
  && negb (should_exclude_file self f)
  && match file_extensions with
     | None => true
     | Some exts =>
         bool_decide (exts = ∅) || existsb (fun ext => Py.endswith f ext) (elements exts)
     end.

(** [analyze_repository].  [pool_order] is the order in which
    [imap_unordered] hands back the tasks. *)
Definition analyze_repository
    (pool_order : list process_args -> list process_args)
    (self : GitContributorAnalyzer) (file_extensions : option (gset string))
  : M GitContributorAnalyzer :=
  match git_ls_files (repo_path self) with
  | inl CalledProcessError => emit (Print ErrorListing);; mret self
  | inl e => raise e
  | inr out =>
      let files := List.filter (keep_file self file_extensions) (Py.split "010" out) in
      let args := map (fun f => (repo_path self, get_revision_range self, f)) files in
      emit (Print (Processing (length files) cpu_count));;
      self ← collect (length files) 1 self
               (map (fun a => (process_file a).2) (pool_order args));
      emit (Print AnalysisComplete);;
      mret self
  end.

(** The totals of one contributor as the JSON and the text report compute
    them: two [sum(...)] over [file_stats.values()]. *)
Definition sum_totals (file_stats : gmap string FileContribution) : Z * Z :=
  let current_total :=
    py_sum (map (fun stats => len (current_lines stats)) (values file_stats)) in
  let historical_total := py_sum (map historical_lines (values file_stats)) in
  (current_total, historical_total).

Definition json_contributor_of (self : GitContributorAnalyzer)
    (author : option string) (file_stats : gmap string FileContribution)
  : json_contributor :=
  let '(current_total, historical_total) := sum_totals file_stats in
  {| emails := default ∅ (contributor_emails self !! author);
     companies := default ∅ (contributor_companies self !! author);
     total_current_lines := current_total;
     total_historical_lines := historical_total;
     files :=
       (fun stats => mkJsonFile (len (current_lines stats)) (historical_lines stats)
                                (fc_last_modified stats)) <$> file_stats |}.

Definition _generate_json_report (self : GitContributorAnalyzer)
    (output_file : string) : M unit :=
  let report_data :=
    {| generated_at := now;
       excluded_commits := exclude_commits self;
       excluded_paths := exclude_paths self;
       excluded_patterns := exclude_patterns self;
       contributors :=
         map_imap (fun author file_stats =>
                     Some (json_contributor_of self author file_stats))
                  (contributor_stats self) |} in
  emit (WriteFile output_file (JsonReport report_data)).

(** The tuple [(author, current_total, historical_total)] that the text
    report appends to [contributor_totals] for one item of
    [contributor_stats]. *)
Definition text_entry_of (item : option string * gmap string FileContribution)
  : option string * Z * Z :=
  let '(author, file_stats) := item in
  let '(current_total, historical_total) := sum_totals file_stats in
  (author, current_total, historical_total).

(** The totals of one contributor as the CSV report computes them: two
    counters advanced in one loop over the files; the result is
    [(current_lines, historical_lines)]. *)
Definition csv_totals (file_stats : gmap string FileContribution) : Z * Z :=
  foldl (fun '(current_lines_, historical_lines_) stats =>
           (current_lines_ + len (current_lines stats),
            historical_lines_ + historical_lines stats))
        (0, 0) (values file_stats).

Definition csv_row_of (self : GitContributorAnalyzer) (author : option string)
  : csv_row :=
  let emails := default ∅ (contributor_emails self !! author) in
  let email_list :=
    if bool_decide (emails = ∅) then EmptyString
    else String.concat ";" (merge_sort String.le (elements emails)) in
  let '(current_lines_, historical_lines_) :=
    csv_totals (default ∅ (contributor_stats self !! author)) in
  mkCsvRow author email_list historical_lines_ current_lines_.

(** The file is opened and the header written before the authors are
    sorted: when sorting raises, a report without rows is left behind. *)
Definition _generate_csv_report (self : GitContributorAnalyzer)
    (output_file : string) : M unit :=
  match sorted_authors (keys (contributor_stats self)) with
  | inl e => emit (WriteFile output_file (CsvReport []));; raise e
  | inr authors =>
      emit (WriteFile output_file (CsvReport (map (csv_row_of self) authors)))
  end.

Definition _generate_text_report (self : GitContributorAnalyzer)
    (output_file : string) (no_sample_code : bool) : M unit :=
  let contributor_totals :=
    map text_entry_of (map_to_list (contributor_stats self)) in
  emit (WriteFile output_file
          (TextReport (merge_sort by_current_desc contributor_totals))).

Definition generate_report (self : GitContributorAnalyzer) (output_file : string)
    (output_format : string) (no_sample_code : bool) : M unit :=
  if String.eqb output_format "json" then _generate_json_report self output_file
  else if String.eqb output_format "csv" then _generate_csv_report self output_file
  else _generate_text_report self output_file no_sample_code.

(** [x.split(',') if x else None] *)
Definition comma_list (x : option string) : option (list string) :=
  match x with
  | Some (String _ _ as s) => Some (Py.split "," s)
  | _ => None
  end.

(** [os.path.basename] on a POSIX path. *)
Definition basename (path : string) : string :=
  default EmptyString (last (Py.split "/" path)).

(** The output path of [main]: the extension of the format is appended
    when the file name has no dot. *)
Definition output_file_of (args : Args) : string :=
  if negb (Py.contains "." (basename (a_output args))) then
    a_output args +:+
    match a_format args with txt => ".txt" | json => ".json" | csv => ".csv" end
  else a_output args.

Definition main (pool_order : list process_args -> list process_args)
    (args : Args) : M unit :=
  let file_extensions :=
    (fun l => list_to_set l : gset string) <$> comma_list (a_extensions args) in
  let exclude_commits := comma_list (a_exclude_commits args) in
  let exclude_paths := comma_list (a_exclude_paths args) in
  let exclude_patterns := comma_list (a_exclude_patterns args) in
  let output_file := output_file_of args in
  let analyzer := init (a_repo_path args) exclude_commits exclude_paths exclude_patterns in
  analyzer ← analyze_repository pool_order analyzer file_extensions;
  generate_report analyzer output_file (format_name (a_format args))
                  (a_no_sample_code args);;
  emit (Print (ReportWritten output_file)).

End Program.

(** ** The per-file sections of the text report *)

(** [sorted(l, key=key)] on integer keys: ascending, and stable (of two
    elements with the same key, the one that comes first in [l] stays
    first). *)
Fixpoint insert_by {A} (key : A → Z) (x : A) (l : list A) : list A :=
  match l with
  | [] => [x]
  | y :: l' => if key x <=? key y then x :: l else y :: insert_by key x l'
  end.

Definition sorted_by {A} (key : A → Z) (l : list A) : list A :=
  foldr (insert_by key) [] l.

(** [sorted(l, key=key, reverse=True)]: descending, and stable as well. *)
Definition sorted_by_desc {A} (key : A → Z) (l : list A) : list A :=
  sorted_by (fun x => - key x) l.

(** [s[:n]] *)
Fixpoint str_take (n : nat) (s : string) : string :=
  match n, s with
  | S n', String c s' => String c (str_take n' s')
  | _, _ => EmptyString
  end.

(** A sample line, as written "    L<number> (<date>): <text>" with "..."
    after a text that was cut. *)
Record sample_line := mkSample {
  sl_number : Z;
  sl_date : option string;
  sl_text : string;
  sl_cut : bool
}.

Definition sample_of (line : LineInfo) : sample_line :=
  {| sl_number := line_number line + 1;
     sl_date := last_modified line;
     sl_text := str_take 100 (content line);
     sl_cut := (100 <? String.length (content line))%nat |}.

(** [for line in sorted(stats.current_lines, key=lambda x: x.line_number)[:3]] *)
Definition samples (stats : FileContribution) : list sample_line :=
  map sample_of (take 3 (sorted_by line_number (current_lines stats))).

(** "Currently present lines by file": for each file with current lines,
    by descending number of them, the path, the number, the date when there
    is one, and the samples.  [items] is [file_stats.items()], in the order
    of the dict. *)
Definition current_section (items : list (string * FileContribution))
  : list (string * Z * option string * list sample_line) :=
  let sorted_files := sorted_by_desc (fun x => len (current_lines x.2)) items in
  omap (fun '(file_path, stats) =>
          match current_lines stats with
          | [] => None
          | _ => Some (file_path, len (current_lines stats),
                       if Py.truthy (fc_last_modified stats)
                       then fc_last_modified stats else None,
                       samples stats)
          end)
       sorted_files.

(** "Historical line contributions by file": for each file with a positive
    count, by descending count, the path and the count. *)
Definition historical_section (items : list (string * FileContribution))
  : list (string * Z) :=
  let sorted_files := sorted_by_desc (fun x => historical_lines x.2) items in
  omap (fun '(file_path, stats) =>
          if 0 <? historical_lines stats
          then Some (file_path, historical_lines stats) else None)
       sorted_files.

(** The two sections of one contributor; nothing with [--no-sample-code]. *)
Definition file_sections (no_sample_code : bool)
    (items : list (string * FileContribution))
  : option (list (string * Z * option string * list sample_line) * list (string * Z)) :=
  if negb no_sample_code then Some (current_section items, historical_section items)
  else None.

(** ** Notions the properties are stated with *)

(** A path [p] holds [e] as a run of whole components: [e] occurs in [p]
    and is delimited on each side by a slash or by the end of the path. *)
Definition component_run (e p : string) : Prop :=
  ∃ u v, p = u +:+ e +:+ v
         ∧ (u = "" ∨ ∃ u', u = u' +:+ "/")
         ∧ (v = "" ∨ ∃ v', v = "/" +:+ v').

(** The fields of a per-file entry. *)
Definition entry_lines (e : file_entry) : list (Z * string * option string) := e.1.1.1.
Definition entry_count (e : file_entry) : Z := e.1.1.2.
Definition entry_date (e : file_entry) : option string := e.1.2.
Definition entry_email (e : file_entry) : option string := e.2.

(** The line number of a recorded current line. *)
Definition line_no (l : Z * string * option string) : Z := l.1.1.

(** A content line of the blame output: a tab, then the text of the line. *)
Definition is_content_line (line : string) : bool :=
  Py.startswith line (String "009" "").

(** The totals of a contributor in the words of the specification: the sum
    over the contributor's files of the number of current lines, and of the
    historical counts. *)
Definition spec_current_total (file_stats : gmap string FileContribution) : Z :=
  map_fold (fun _ stats total => Z.of_nat (length (current_lines stats)) + total)
           0 file_stats.

Definition spec_historical_total (file_stats : gmap string FileContribution) : Z :=
  map_fold (fun _ stats total => historical_lines stats + total) 0 file_stats.

(** What a report says about the contributors: for each one written, the
    pair (current total, historical total). *)
Definition reported_totals (doc : report) : list (option string * (Z * Z)) :=
  match doc with
  | JsonReport d =>
      map (fun '(a, c) => (a, (total_current_lines c, total_historical_lines c)))
          (map_to_list (contributors d))
  | CsvReport rows =>
      map (fun r => (csv_name r, (csv_current_lines r, csv_total_lines r))) rows
  | TextReport entries => map (fun '(a, c, h) => (a, (c, h))) entries
  end.

(** The reports written during a computation. *)
Definition written {A} (m : M A) : list (string * report) :=
  omap (fun ev => match ev with WriteFile f d => Some (f, d) | _ => None end) (trace m).

(** The state of the blame walk after it has recorded a content line. *)
Definition record_line (st : blame_state) (content : string) : blame_state :=
  let e := result_get (b_result st) (b_author st) in
  mkBlame (b_author st) (b_line_num st + 1) (Some content) (b_date st) (b_email st)
          (<[b_author st := (entry_lines e ++ [(b_line_num st, content, b_date st)],
                             entry_count e, b_date st, b_email st)]> (b_result st)).

(** Every content line among [lines] is recorded by the walk that starts in
    [st]: when the walk reaches it, the current author is known and not
    empty, and the text of the line is not empty. *)
Fixpoint all_recorded (format_date : Z → option string) (st : blame_state)
    (lines : list string) : bool :=
  match lines with
  | [] => true
  | line :: rest =>
      (negb (is_content_line line)
       || Py.truthy (b_author st) && Py.nonempty (Py.drop 1 line))
      && match blame_step format_date st line with
         | inr st' => all_recorded format_date st' rest
         | inl _ => true
         end
  end.

Definition raises {A} (r : exn + A) : bool :=
  match r with inl _ => true | inr _ => false end.

(** The processing of a file fails: one of its git commands exits with an
    error or raises, or parsing the blame output raises. *)
Definition file_fails (format_date : Z → option string)
    (git_rev_list git_blame git_log : string * list string * string → exn + string)
    (args : string * list string * string) : bool :=
  raises (git_rev_list args)
  || raises (git_blame args)
  || raises (git_log args)
  || match git_blame args with
     | inr blame_output =>
         raises (blame_walk format_date blame_init (Py.split "010" blame_output))
     | inl _ => false
     end.

(** What the aggregate holds about one author. *)
Definition view (self : GitContributorAnalyzer) (a : option string)
  : option (gmap string FileContribution) * option (gset string) * option (gset string) :=
  (contributor_stats self !! a, contributor_emails self !! a,
   contributor_companies self !! a).

(** The record an author's entry for a file is merged into. *)
Definition merged_contribution (old : option FileContribution) (e : file_entry)
  : FileContribution :=
  {| current_lines :=
       current_lines (default FileContribution_init old) ++
       map (fun '(line_num, content, date) => mkLineInfo content line_num date)
           (entry_lines e);
     historical_lines := entry_count e;
     fc_last_modified := entry_date e;
     committer_email := entry_email e |}.

(** The effect of merging the entry [e] of an author for the file
    [file_path] on what the aggregate holds about that author. *)
Definition merge_view (parseaddr : string → string) (file_path : string) (e : file_entry)
    (v : option (gmap string FileContribution) * option (gset string) * option (gset string))
  : option (gmap string FileContribution) * option (gset string) * option (gset string) :=
  let '(stats, emails, companies) := v in
  let by_file := default ∅ stats in
  (Some (<[file_path := merged_contribution (by_file !! file_path) e]> by_file),
   match entry_email e with
   | Some (String _ _ as em) => Some ({[em]} ∪ default ∅ emails)
   | _ => emails
   end,
   match entry_email e with
   | Some (String _ _ as em) =>
       match extract_email_domain parseaddr em with
       | Some (String _ _ as domain) => Some ({[domain]} ∪ default ∅ companies)
       | _ => companies
       end
   | _ => companies
   end).

Definition same_config (s1 s2 : GitContributorAnalyzer) : Prop :=
  repo_path s1 = repo_path s2 ∧ exclude_commits s1 = exclude_commits s2
  ∧ exclude_paths s1 = exclude_paths s2 ∧ exclude_patterns s1 = exclude_patterns s2.

(** No contribution record is keyed by [f]. *)
Definition absent (f : string) (self : GitContributorAnalyzer) : Prop :=
  ∀ a by_file, contributor_stats self !! a = Some by_file → by_file !! f = None.

(** The tasks handed to the worker pool. *)
Definition tasks_of (fnmatch : string → string → bool) (self : GitContributorAnalyzer)
    (file_extensions : option (gset string)) (out : string)
  : list (string * list string * string) :=
  map (fun f => (repo_path self, get_revision_range self, f))
      (List.filter (keep_file fnmatch self file_extensions) (Py.split "010" out)).

(** What a report says is right, and complete when it was written to the
    end. *)
Definition faithful (self : GitContributorAnalyzer) (complete : bool)
    (doc : report) : Prop :=
  (∀ a t, (a, t) ∈ reported_totals doc →
     ∃ file_stats, contributor_stats self !! a = Some file_stats
       ∧ t = (spec_current_total file_stats, spec_historical_total file_stats))
  ∧ (complete = true →
     ∀ a file_stats, contributor_stats self !! a = Some file_stats →
       (a, (spec_current_total file_stats, spec_historical_total file_stats))
         ∈ reported_totals doc).

(** The line numbers of a per-file result are pairwise distinct: within an
    author's list, and between the lists of two authors. *)
Definition distinct_numbers (r : file_results) : Prop :=
  (∀ a e, r !! a = Some e → NoDup (line_no <$> entry_lines e))
  ∧ (∀ a b ea eb x y,
       r !! a = Some ea → r !! b = Some eb → a ≠ b →
       x ∈ entry_lines ea → y ∈ entry_lines eb → line_no x ≠ line_no y).

(** The invariant of the blame walk: the numbers recorded so far are
    distinct and below the line counter, and no count has been touched. *)
Definition blame_inv (st : blame_state) : Prop :=
  distinct_numbers (b_result st)
  ∧ (∀ a e x, b_result st !! a = Some e → x ∈ entry_lines e →
       0 ≤ line_no x < b_line_num st)
  ∧ (∀ a e, b_result st !! a = Some e → entry_count e = 0)
  ∧ 0 ≤ b_line_num st.



(** ** Notions of the further properties *)

(** The order of a sort by an integer key. *)
Definition key_le {A} (key : A → Z) (x y : A) : Prop := key x ≤ key y.

(** The messages of the analysis. *)
Definition analysis_message (ev : event) : bool :=
  match ev with
  | Print ErrorListing | Print (Processing _ _) | Print (Processed _ _)
  | Print AnalysisComplete => true
  | _ => false
  end.

(** The sum of a measure over the entries of a per-file result. *)
Definition sum_entries (g : file_entry → Z) (r : file_results) : Z :=
  map_fold (fun _ e total => g e + total) 0 r.

(** What a line of the log output adds to the historical counts: the first
    field of a line of three tab-separated fields that starts with a digit,
    when [int] reads it; nothing otherwise. *)
Definition line_additions (line : string) : Z :=
  match Py.strip_ws line, line with
  | EmptyString, _ | _, EmptyString => 0
  | _, String c _ =>
      if Py.isdigit c then
        match Py.split "009" line with
        | [additions; _; _] =>
            if String.eqb additions "-" then 0 else default 0 (Py.int additions)
        | _ => 0
        end
      else 0
  end.

(** The text and the date of a recorded current line. *)
Definition line_text (l : Z * string * option string) : string := l.1.2.
Definition line_date (l : Z * string * option string) : option string := l.2.

(** The number of current lines of a per-file result. *)
Definition recorded_lines (r : file_results) : Z :=
  sum_entries (fun e => len (entry_lines e)) r.

(** What the blame walk keeps besides [blame_inv]: the numbers below the
    line counter are all taken, the counter is the number of recorded lines,
    a recorded line has a text and a named author, and the date of an entry
    is the date of its last line. *)
Definition blame_inv2 (st : blame_state) : Prop :=
  (∀ k, 0 ≤ k < b_line_num st →
     ∃ a e x, b_result st !! a = Some e ∧ x ∈ entry_lines e ∧ line_no x = k)
  ∧ b_line_num st = recorded_lines (b_result st)
  ∧ (∀ a e x, b_result st !! a = Some e → x ∈ entry_lines e → line_text x ≠ "")
  ∧ (∀ a e, b_result st !! a = Some e → Py.truthy a = true)
  ∧ (∀ a e, b_result st !! a = Some e →
       ∃ l x, entry_lines e = l ++ [x] ∧ entry_date e = line_date x).

(** The emails and companies of the aggregate are consistent: an author
    with emails has statistics, no email is empty, and every company of an
    author is the domain, not empty, of one of the author's emails. *)
Definition emails_consistent (parseaddr : string → string)
    (self : GitContributorAnalyzer) : Prop :=
  ∀ a,
    (∀ es, contributor_emails self !! a = Some es →
       is_Some (contributor_stats self !! a) ∧ ∀ e, e ∈ es → e ≠ "")
    ∧ (∀ cs d, contributor_companies self !! a = Some cs → d ∈ cs →
         d ≠ "" ∧ ∃ es e, contributor_emails self !! a = Some es ∧ e ∈ es
                          ∧ extract_email_domain parseaddr e = Some d).

(** The aggregate [s'] holds what [s] holds, and possibly more: the same
    configuration, every record of [s] with its current lines as a prefix
    of the lines it has in [s'], and every email and company of [s]. *)
Definition grows (s s' : GitContributorAnalyzer) : Prop :=
  same_config s' s
  ∧ (∀ a by_file f c,
       contributor_stats s !! a = Some by_file → by_file !! f = Some c →
       ∃ by_file' c', contributor_stats s' !! a = Some by_file'
                      ∧ by_file' !! f = Some c'
                      ∧ current_lines c `prefix_of` current_lines c')
  ∧ (∀ a es, contributor_emails s !! a = Some es →
       ∃ es', contributor_emails s' !! a = Some es' ∧ es ⊆ es')
  ∧ (∀ a cs, contributor_companies s !! a = Some cs →
       ∃ cs', contributor_companies s' !! a = Some cs' ∧ cs ⊆ cs').

(** ** A sample environment, to run the program on concrete inputs *)

Module Sample.

(** The fragment of [fnmatch] without bracket expressions: [*] matches any
    run of characters, [?] any one character. *)
Fixpoint wild (pat : string) : string -> bool :=
  match pat with
  | EmptyString => fun name => negb (Py.nonempty name)
  | String c pat' =>
      if Ascii.eqb c "*" then
        fix star (name : string) : bool :=
          wild pat' name
          || match name with
             | EmptyString => false
             | String _ name' => star name'
             end
      else
        fun name =>
          match name with
          | EmptyString => false
          | String d name' => (Ascii.eqb c "?" || Ascii.eqb c d) && wild pat' name'
          end
  end.

Definition fnmatch (name pat : string) : bool := wild pat name.

(** A bare address is returned as it is. *)
Definition parseaddr (s : string) : string := s.

(** Every timestamp falls on one day. *)
Definition format_date (t : Z) : option string := Some "2024-01-01".

Definition nl : string := String "010" "".
Definition tab : string := String "009" "".
Definition nul : string := String "000" "".

Definition unlines (ls : list string) : string := String.concat nl ls.

(** A three-line file, blank in the middle, all of it by Ann. *)
Definition blame_blank : string :=
  unlines ["author Ann"; "author-mail <ann@x.org>"; "author-time 0"; tab +:+ "foo";
           "author Ann"; "author-mail <ann@x.org>"; "author-time 0"; tab;
           "author Ann"; "author-mail <ann@x.org>"; "author-time 0"; tab +:+ "bar"].

(** A one-line file by Ann. *)
Definition blame_ann : string :=
  unlines ["author Ann"; "author-mail <ann@x.org>"; "author-time 0"; tab +:+ "foo"].

(** Ann's commit, then an older one by Bob, whose lines are gone. *)
Definition log_ann_bob : string :=
  unlines ["Ann" +:+ nul +:+ "ann@x.org"; "1" +:+ tab +:+ "2" +:+ tab +:+ "f.py"; "";
           "Bob" +:+ nul +:+ "bob@y.org"; "2" +:+ tab +:+ "0" +:+ tab +:+ "f.py"].

(** A commit by an author whose name starts with a digit. *)
Definition log_digit_name : string :=
  unlines ["2bits" +:+ nul +:+ "two@bits.org"; "3" +:+ tab +:+ "1" +:+ tab +:+ "f.py"].

(** A commit by Ann with a binary-file marker ahead of a counted file. *)
Definition log_binary : string :=
  unlines ["Ann" +:+ nul +:+ "ann@x.org"; "-" +:+ tab +:+ "-" +:+ tab +:+ "a.bin";
           "3" +:+ tab +:+ "1" +:+ tab +:+ "b.py"].

(** The same commit without the marker. *)
Definition log_no_binary : string :=
  unlines ["Ann" +:+ nul +:+ "ann@x.org"; "3" +:+ tab +:+ "1" +:+ tab +:+ "b.py"].

(** A repository with the files f.py and vendor/g.py. *)
Definition git_ls_files (repo : string) : exn + string :=
  inr (unlines ["f.py"; "vendor/g.py"; ""]).
Definition git_ls_files_fails (repo : string) : exn + string :=
  inl CalledProcessError.
Definition git_rev_list (a : string * list string * string) : exn + string :=
  inr "0123abc".
Definition git_blame (a : string * list string * string) : exn + string :=
  if String.eqb a.2 "f.py" then inr blame_ann else inl CalledProcessError.
Definition git_log (a : string * list string * string) : exn + string :=
  inr log_ann_bob.

Definition pool_order (tasks : list (string * list string * string))
  : list (string * list string * string) := rev tasks.

Definition args (f : Format) : Args :=
  {| a_repo_path := "repo"; a_extensions := None; a_exclude_commits := None;
     a_exclude_paths := Some "vendor/"; a_exclude_patterns := None;
     a_output := "out"; a_format := f; a_debug := false;
     a_no_sample_code := false |}.

(** The analyzer of the sample run, and its aggregate after the analysis. *)
Definition analyzer : GitContributorAnalyzer :=
  init "repo" None (Some ["vendor/"]) None.

Definition analyzed : GitContributorAnalyzer :=
  match outcome (analyze_repository fnmatch parseaddr format_date 4
                   git_ls_files git_rev_list git_blame git_log pool_order
                   analyzer None) with
  | inr self => self
  | inl _ => analyzer
  end.

(** The JSON report of that aggregate. *)
Definition json_doc : report :=
  match written (generate_report "now" analyzed "out.json" "json" false) with
  | [(_, doc)] => doc
  | _ => TextReport []
  end.

End Sample.

(** * Properties *)

(** ** Strings *)

#[local] Arguments String.append !_ _ / : simpl nomatch.

Lemma app_nil_r_s (s : string) : s +:+ "" = s.
Proof. induction s as [|c s IH]; [done|]. cbn. by rewrite IH. Qed.

Lemma app_assoc_s (s1 s2 s3 : string) : (s1 +:+ s2) +:+ s3 = s1 +:+ s2 +:+ s3.
Proof. induction s1 as [|c s1 IH]; [done|]. cbn. by rewrite IH. Qed.

Lemma app_eq_nil_s (s t : string) : s +:+ t = "" → s = "" ∧ t = "".
Proof. destruct s; [done|]. discriminate. Qed.

Lemma prefix_app (p s : string) :
  String.prefix p s = true ↔ ∃ v, s = p +:+ v.
Proof.
  revert s. induction p as [|c p IH]; intros s.
  - destruct s; cbn; split; eauto.
  - destruct s as [|d s]; cbn.
    + split; [done|]. by intros [v ?].
    + destruct (ascii_dec c d) as [->|Hne].
      * rewrite IH. split; intros [v Hv]; exists v; [by rewrite Hv|].
        by injection Hv.
      * split; [done|]. intros [v Hv]. injection Hv as -> _. done.
Qed.

Lemma contains_app (sub s : string) :
  Py.contains sub s = true ↔ ∃ u v, s = u +:+ sub +:+ v.
Proof.
  induction s as [|c s IH]; cbn [Py.contains]; rewrite orb_true_iff, prefix_app.
  - split.
    + intros [[v Hv]|?]; [|done]. by exists "", v.
    + intros (u & v & H). left.
      symmetry in H. apply app_eq_nil_s in H as [-> H].
      apply app_eq_nil_s in H as [-> ->]. by exists "".
  - rewrite IH. split.
    + intros [[v Hv]|(u & v & Hv)]; [by exists "", v|].
      exists (String c u), v. by rewrite Hv.
    + intros (u & v & H). destruct u as [|d u]; [left; by exists v|].
      right. injection H as _ H. by exists u, v.
Qed.

Lemma snoc_eq_app c (s1 s2 t : string) :
  s1 +:+ String c "" = s2 +:+ t →
  (t = "" ∧ s2 = s1 +:+ String c "") ∨ (∃ t', t = t' +:+ String c "" ∧ s1 = s2 +:+ t').
Proof.
  revert s1. induction s2 as [|a s2 IH]; intros s1 H.
  - right. exists s1. done.
  - destruct s1 as [|b s1]; cbn in H.
    + injection H as <- H. symmetry in H. apply app_eq_nil_s in H as [-> ->].
      by left.
    + injection H as <- H. apply IH in H as [[-> ->]|(t' & -> & ->)]; [by left|].
      right. by exists t'.
Qed.

Lemma contains_delimited (e p : string) :
  Py.contains ("/" +:+ e +:+ "/") ("/" +:+ p +:+ "/") = true ↔ component_run e p.
Proof.
  rewrite contains_app. unfold component_run. split.
  - intros (u & v & H).
    assert (("/" +:+ p) +:+ "/" = (u +:+ "/" +:+ e) +:+ "/" +:+ v) as H'.
    { rewrite ?app_assoc_s in *. exact H. }
    apply snoc_eq_app in H' as [[? _]|(t' & Ht & Hp)]; [done|].
    assert (t' = "" ∨ ∃ v', t' = "/" +:+ v') as Hv.
    { destruct t' as [|a t']; [by left|]. right. injection Ht as <- _. by exists t'. }
    destruct u as [|a u]; cbn in Hp.
    + injection Hp as ->. exists "", t'. split_and!; auto.
    + injection Hp as <- ->. exists (u +:+ "/"), t'. split_and!; eauto.
      by rewrite !app_assoc_s.
  - intros (u & v & -> & Hu & Hv).
    destruct Hu as [->|[u' ->]], Hv as [->|[v' ->]].
    + exists "", "". cbn. by rewrite ?app_assoc_s, ?app_nil_r_s.
    + exists "", (v' +:+ "/"). cbn. by rewrite ?app_assoc_s, ?app_nil_r_s.
    + exists ("/" +:+ u'), "". cbn. by rewrite ?app_assoc_s, ?app_nil_r_s.
    + exists ("/" +:+ u'), (v' +:+ "/"). cbn. by rewrite ?app_assoc_s, ?app_nil_r_s.
Qed.

Lemma replace_idem a b (s : string) :
  a ≠ b → Py.replace a b (Py.replace a b s) = Py.replace a b s.
Proof.
  intros Hab. induction s as [|c s IH]; [done|]. cbn. rewrite IH. f_equal.
  destruct (Ascii.eqb_spec c a) as [->|Hc].
  - destruct (Ascii.eqb_spec b a); done.
  - destruct (Ascii.eqb_spec c a); done.
Qed.

(** Equality and the directory prefix are runs of whole components too. *)
Lemma path_hit_spec (p e : string) :
  path_hit p e = true ↔ component_run e p.
Proof.
  unfold path_hit. rewrite !orb_true_iff, contains_delimited.
  split; [|by right].
  intros [[H|H]|H]; [| |done].
  - apply String.eqb_eq in H as ->. exists "", "". rewrite app_nil_r_s. split_and!; [done|by left..].
  - apply prefix_app in H as [v ->]. exists "", ("/" +:+ v).
    rewrite app_assoc_s. split_and!; [done|by left|right; by exists v].
Qed.

Lemma exclude_paths_loop_spec (eps : list string) (p : string) :
  let q := Py.replace "\" "/" p in
  (exclude_paths_loop eps p).1 = true ↔
    ∃ e, e ∈ eps ∧ path_hit q (Py.replace "\" "/" e) = true.
Proof.
  cbn zeta. revert p. induction eps as [|e eps IH]; intros p; cbn.
  - split; [done|]. intros (e & He & _). by apply elem_of_nil in He.
  - destruct (path_hit _ _) eqn:Hhit; cbn.
    + split; [|done]. intros _. exists e. split; [left|done].
    + rewrite IH, replace_idem by done. split.
      * intros (e' & He' & H). exists e'. split; [by right|done].
      * intros (e' & He' & H). apply elem_of_cons in He' as [->|He'].
        -- congruence.
        -- by exists e'.
Qed.

Lemma exclude_paths_loop_path (eps : list string) (p : string) :
  (exclude_paths_loop eps p).2 =
    match eps with [] => p | _ => Py.replace "\" "/" p end.
Proof.
  assert (∀ eps p, eps ≠ [] → Py.replace "\" "/" ((exclude_paths_loop eps p).2) = (exclude_paths_loop eps p).2 ∧ (exclude_paths_loop eps p).2 = Py.replace "\" "/" p) as H.
  { clear. induction eps as [|e eps IH]; intros p Hne; [done|]. cbn.
    destruct (path_hit _ _); cbn; [by rewrite replace_idem|].
    destruct eps as [|e' eps]; [cbn; by rewrite replace_idem|].
    destruct (IH (Py.replace "\" "/" p)) as [H1 H2]; [done|].
    rewrite H2, !replace_idem by done. done. }
  destruct eps; [done|]. apply H. done.
Qed.

(** ** The exclusion filter *)

(** C1, as amended.  [should_exclude_file] returns true exactly when, for
    some exclude path, the normalized path equals it, lies under it as a
    directory prefix, or holds it as a run of whole components, or when the
    normalized path matches some glob pattern.  The path is normalized by
    stripping the slashes at both ends and, when there is an exclude path
    at all, by turning backslashes into slashes. *)
Theorem should_exclude_file_iff (fnmatch : string → string → bool)
    (self : GitContributorAnalyzer) (file_path : string) :
  let p := Py.strip "/" file_path in
  let q := Py.replace "\" "/" p in
  should_exclude_file fnmatch self file_path = true ↔
    (∃ e, e ∈ exclude_paths self ∧
          let e' := Py.replace "\" "/" e in
          q = e' ∨ (∃ rest, q = e' +:+ "/" +:+ rest) ∨ component_run e' q)
    ∨ (∃ pattern, pattern ∈ exclude_patterns self ∧
          fnmatch (match exclude_paths self with [] => p | _ => q end) pattern = true).
Proof.
  intros p q. unfold should_exclude_file. fold p.
  pose proof (exclude_paths_loop_spec (exclude_paths self) p) as Hhit.
  pose proof (exclude_paths_loop_path (exclude_paths self) p) as Hpath.
  destruct (exclude_paths_loop (exclude_paths self) p) as [hit np].
  cbn [fst snd] in Hhit, Hpath. fold q in Hhit, Hpath. subst np.
  assert (hit = true ↔
          ∃ e, e ∈ exclude_paths self ∧
               let e' := Py.replace "\" "/" e in
               q = e' ∨ (∃ rest, q = e' +:+ "/" +:+ rest) ∨ component_run e' q) as Hhit'.
  { rewrite Hhit. split; intros (e & He & H); exists e; (split; [done|]).
    - right; right. by apply path_hit_spec.
    - apply path_hit_spec. cbn zeta in H. destruct H as [->|[[rest ->]|H]]; [| |done].
      + exists "", "". rewrite app_nil_r_s. split_and!; [done|by left..].
      + exists "", ("/" +:+ rest). split_and!; [done|by left|right; by exists rest]. }
  destruct hit.
  - split; [intros _; left; by apply Hhit'|done].
  - rewrite existsb_exists. split.
    + intros (pat & Hin & Hm). right. exists pat. by rewrite list_elem_of_In.
    + intros [H|(pat & Hin & Hm)]; [by apply Hhit' in H|].
      exists pat. by rewrite <-list_elem_of_In.
Qed.

(** C1, counterexample.  With the exclude path "vendor", the path
    "myvendor/file.py" has the excluded string as a substring and is not
    excluded. *)
Lemma should_exclude_file_substring_kept :
  Py.contains "vendor" "myvendor/file.py" = true
  ∧ should_exclude_file Sample.fnmatch
      (init "repo" None (Some ["vendor"]) None) "myvendor/file.py" = false.
Proof. split; reflexivity. Qed.

(** ** The log walk *)

Lemma isdigit_range (c : ascii) :
  Py.isdigit c = true ↔ (48 ≤ N_of_ascii c ≤ 57)%N.
Proof. unfold Py.isdigit. rewrite andb_true_iff, !N.leb_le. done. Qed.

Lemma isdigit_not_space (c : ascii) : Py.isdigit c = true → Py.isspace c = false.
Proof.
  rewrite isdigit_range. unfold Py.isspace. intros [H1 H2].
  rewrite orb_false_iff, !andb_false_iff, !N.leb_gt. lia.
Qed.

Lemma strip_ws_digit (c : ascii) (s : string) :
  Py.isdigit c = true → ∃ s', Py.strip_ws (String c s) = String c s'.
Proof.
  intros Hd%isdigit_not_space. unfold Py.strip_ws. cbn [Py.lstrip_by Py.rstrip_by].
  rewrite Hd. cbn [Py.rstrip_by]. rewrite Hd. destruct (Py.rstrip_by _ s); eauto.
Qed.

(** A line that is not blank and does not start with a digit is read as an
    author line: it replaces the current author and email, and leaves the
    result alone. *)
Lemma log_step_author_line (st : log_state) (c : ascii) (s : string) :
  Py.strip_ws (String c s) ≠ "" → Py.isdigit c = false →
  log_step st (String c s) =
    mkLog (head (Py.split "000" (String c s))) (second (Py.split "000" (String c s)))
          (l_result st).
Proof.
  intros Hne Hd. unfold log_step. destruct (Py.strip_ws (String c s)); [done|].
  by rewrite Hd.
Qed.

(** A line of three tab-separated fields that starts with a digit adds
    its first field, and nothing else, to the current author's count. *)
Lemma log_step_count_line (st : log_state) (c : ascii) (s additions deletions name : string) (n : Z) :
  Py.isdigit c = true →
  Py.split "009" (String c s) = [additions; deletions; name] →
  Py.int additions = Some n →
  log_step st (String c s) =
    let e := result_get (l_result st) (l_author st) in
    mkLog (l_author st) (l_email st)
          (<[l_author st := (entry_lines e, entry_count e + n, entry_date e,
                             Py.or_ (l_email st) (entry_email e))]> (l_result st)).
Proof.
  intros Hd Hs Hn. unfold log_step.
  destruct (strip_ws_digit c s Hd) as [s' ->].
  rewrite Hd, Hs. cbn [negb].
  assert (additions ≠ "-") as Hm by (intros ->; done).
  apply String.eqb_neq in Hm. rewrite Hm. cbn [negb].
  destruct (result_get _ _) as [[[lines count] date] email]. by rewrite Hn.
Qed.


Lemma digit_val_nonneg (c : ascii) : Py.isdigit c = true → 0 ≤ Py.digit_val c.
Proof. rewrite isdigit_range. unfold Py.digit_val. lia. Qed.

Lemma int_digits_nonneg (s : string) (acc n : Z) (b : bool) :
  0 ≤ acc → Py.int_digits acc b s = Some n → 0 ≤ n.
Proof.
  revert acc b. induction s as [|c s IH]; intros acc b Hacc; cbn.
  - destruct b; [|done]. by intros [= <-].
  - destruct (Py.isdigit c) eqn:Hd.
    + apply IH. pose proof (digit_val_nonneg c Hd). lia.
    + destruct (Ascii.eqb c "_"); [|done]. destruct b; [|done]. by apply IH.
Qed.

(** [int] of a text that starts with a digit is not negative. *)
Lemma int_nonneg (c : ascii) (s : string) (n : Z) :
  Py.isdigit c = true → Py.int (String c s) = Some n → 0 ≤ n.
Proof.
  intros Hd. unfold Py.int. destruct (strip_ws_digit c s Hd) as [s' ->].
  destruct (Ascii.eqb_spec c "-") as [->|_]; [done|].
  destruct (Ascii.eqb_spec c "+") as [->|_]; [done|].
  by apply int_digits_nonneg.
Qed.

Lemma split_head (sep c : ascii) (s : string) :
  Ascii.eqb c sep = false → ∃ w ws, Py.split sep (String c s) = String c w :: ws.
Proof. intros H. cbn. rewrite H. destruct (Py.split sep s); eauto. Qed.

(** One round of the log loop leaves the result as it is, or gives the
    current author an entry with the same lines and a count that is not
    smaller. *)
Lemma log_step_inv (st : log_state) (line : string) :
  l_result (log_step st line) = l_result st
  ∨ ∃ n em, 0 ≤ n ∧
      let e := result_get (l_result st) (l_author st) in
      l_result (log_step st line) =
        <[l_author st := (entry_lines e, entry_count e + n, entry_date e, em)]> (l_result st).
Proof.
  unfold log_step. destruct (Py.strip_ws line) as [|c0 s0]; [by left|].
  destruct line as [|c s]; [by left|].
  destruct (Py.isdigit c) eqn:Hd; cbn [negb]; [|by left].
  assert (Ascii.eqb c "009" = false) as Hc.
  { destruct (Ascii.eqb_spec c "009") as [->|]; done. }
  destruct (split_head _ _ s Hc) as (w & ws & ->).
  destruct ws as [|deletions [|name [|]]]; try by left.
  destruct (negb _); [|by left].
  unfold entry_lines, entry_count, entry_date.
  destruct (result_get _ _) as [[[lines count] date] email]. cbn [fst snd].
  destruct (Py.int _) as [n|] eqn:Hn; right.
  - exists n, (Py.or_ (l_email st) email). split; [|done]. by eapply int_nonneg.
  - exists 0, email. split; [done|]. by rewrite Z.add_0_r.
Qed.

(** The log walk keeps every entry and its current lines; an entry it
    creates has none. *)
Lemma log_walk_lines (lines : list string) (st : log_state) (a : option string) :
  match l_result (log_walk st lines) !! a with
  | Some e' => entry_lines e' = from_option entry_lines [] (l_result st !! a)
  | None => l_result st !! a = None
  end.
Proof.
  induction lines as [|line lines IH] using rev_ind.
  - cbn. by destruct (l_result st !! a).
  - unfold log_walk. rewrite foldl_snoc. fold (log_walk st lines).
    destruct (log_step_inv (log_walk st lines) line) as [->|(n & em & _ & ->)]; [done|].
    destruct (decide (l_author (log_walk st lines) = a)) as [Ha|Hne].
    + rewrite Ha, lookup_insert_eq. cbn. unfold result_get.
      destruct (l_result (log_walk st lines) !! a) as [e1|]; [done|].
      by rewrite IH.
    + by rewrite lookup_insert_ne.
Qed.

(** The log walk keeps the counts from going down, and starts a new entry at
    a count that is not negative. *)
Lemma log_walk_count (lines : list string) (st : log_state) (a : option string) :
  match l_result (log_walk st lines) !! a with
  | Some e' => from_option entry_count 0 (l_result st !! a) ≤ entry_count e'
  | None => l_result st !! a = None
  end.
Proof.
  induction lines as [|line lines IH] using rev_ind.
  - cbn. by destruct (l_result st !! a).
  - unfold log_walk. rewrite foldl_snoc. fold (log_walk st lines).
    destruct (log_step_inv (log_walk st lines) line) as [->|(n & em & Hn & ->)]; [done|].
    destruct (decide (l_author (log_walk st lines) = a)) as [Ha|Hne].
    + rewrite Ha, lookup_insert_eq. cbn. unfold result_get.
      destruct (l_result (log_walk st lines) !! a) as [e1|]; cbn.
      * unfold entry_count in *. lia.
      * rewrite IH. cbn. lia.
    + by rewrite lookup_insert_ne.
Qed.

(** C2.  The log walk takes an author line that starts with a digit for a
    count line, and a binary-file marker for an author line.  In the log of
    a commit by "2bits" the three added lines go to the author [None]; a
    marker ahead of a count line moves Ann's three lines to an author named
    after the marker, while the same log without the marker credits Ann. *)
Theorem log_walk_misattributes :
  l_result (log_walk (mkLog None None ∅) (Py.split "010" Sample.log_digit_name))
    = {[ None := ([], 3, None, None) ]}
  ∧ l_result (log_walk (mkLog None None ∅) (Py.split "010" Sample.log_binary))
    = {[ Some ("-" +:+ Sample.tab +:+ "-" +:+ Sample.tab +:+ "a.bin") := ([], 3, None, None) ]}
  ∧ l_result (log_walk (mkLog None None ∅) (Py.split "010" Sample.log_no_binary))
    = {[ Some "Ann" := ([], 3, None, Some "ann@x.org") ]}.
Proof. split_and!; by vm_compute. Qed.

(** ** The blame walk *)

Section BlameFacts.

Variable format_date : Z → option string.

Lemma header_not_content (line h : string) (c : ascii) :
  c ≠ "009"%char → Py.startswith line (String c h) = true → is_content_line line = false.
Proof.
  intros Hc [v ->]%prefix_app. unfold is_content_line, Py.startswith.
  change (String c h +:+ v) with (String c (h +:+ v)).
  cbn [String.prefix].
  destruct (ascii_dec "009" c); [congruence|done].
Qed.

(** One round of the blame loop either records the content line it is
    given, or leaves the result and the line counter as they are. *)
Lemma blame_step_inv (st st' : blame_state) (line : string) :
  blame_step format_date st line = inr st' →
  (is_content_line line = true
   ∧ Py.truthy (b_author st) && Py.nonempty (Py.drop 1 line) = true
   ∧ st' = record_line st (Py.drop 1 line))
  ∨ (b_result st' = b_result st ∧ b_line_num st' = b_line_num st
     ∧ (is_content_line line = true →
        Py.truthy (b_author st) && Py.nonempty (Py.drop 1 line) = false
        ∧ b_author st' = b_author st ∧ b_date st' = b_date st)).
Proof.
  unfold blame_step. intros H.
  destruct (Py.startswith line "author ") eqn:H1.
  { injection H as <-. right. split_and!; [done..|].
    intros Hc. by rewrite (header_not_content line "uthor " "a" ltac:(done) H1) in Hc. }
  destruct (Py.startswith line "author-mail ") eqn:H2.
  { injection H as <-. right. split_and!; [done..|].
    intros Hc. by rewrite (header_not_content line "uthor-mail " "a" ltac:(done) H2) in Hc. }
  destruct (Py.startswith line "author-time ") eqn:H3.
  { right. destruct (Py.int _); [|done]. destruct (format_date _); [|done].
    injection H as <-. split_and!; [done..|].
    intros Hc. by rewrite (header_not_content line "uthor-time " "a" ltac:(done) H3) in Hc. }
  fold (is_content_line line) in H. destruct (is_content_line line) eqn:H4.
  - destruct (Py.truthy _ && _) eqn:H5.
    + left. split_and!; [done..|].
      unfold record_line, entry_lines, entry_count.
      destruct (result_get _ _) as [[[lines count] d] em]. by injection H as <-.
    + right. injection H as <-. done.
  - right. injection H as <-. done.
Qed.

Lemma blame_walk_app (st : blame_state) (l1 l2 : list string) :
  blame_walk format_date st (l1 ++ l2) =
    match blame_walk format_date st l1 with
    | inl e => inl e
    | inr st' => blame_walk format_date st' l2
    end.
Proof.
  revert st. induction l1 as [|line l1 IH]; intros st; [done|]. cbn.
  destruct (blame_step _ _ _); [done|]. apply IH.
Qed.

(** The walk only ever appends to an author's list of current lines. *)
Lemma blame_step_keeps (st st' : blame_state) (line : string) a e :
  blame_step format_date st line = inr st' →
  b_result st !! a = Some e →
  ∃ e', b_result st' !! a = Some e' ∧ entry_lines e `prefix_of` entry_lines e'.
Proof.
  intros [(_ & _ & ->)|(-> & _)]%blame_step_inv Ha; [|by exists e].
  cbn. destruct (decide (b_author st = a)) as [->|Hne].
  - rewrite lookup_insert_eq. eexists. split; [done|].
    unfold result_get. rewrite Ha. cbn. by apply prefix_app_r.
  - rewrite lookup_insert_ne by done. by exists e.
Qed.

Lemma blame_walk_keeps (st st' : blame_state) (lines : list string) a e :
  blame_walk format_date st lines = inr st' →
  b_result st !! a = Some e →
  ∃ e', b_result st' !! a = Some e' ∧ entry_lines e `prefix_of` entry_lines e'.
Proof.
  revert st e. induction lines as [|line lines IH]; intros st e H Ha; cbn in H.
  - injection H as <-. by exists e.
  - destruct (blame_step _ _ _) as [|st1] eqn:Hs; [done|].
    destruct (blame_step_keeps _ _ _ _ _ Hs Ha) as (e1 & H1 & Hp1).
    destruct (IH _ _ H H1) as (e' & H' & Hp'). exists e'. split; [done|].
    by etrans.
Qed.

(** While every content line is recorded, the line counter is the
    number of content lines met. *)
Lemma blame_walk_position (st st' : blame_state) (lines : list string) :
  all_recorded format_date st lines = true →
  blame_walk format_date st lines = inr st' →
  b_line_num st' = b_line_num st + len (List.filter is_content_line lines).
Proof.
  unfold len.
  revert st. induction lines as [|line lines IH]; intros st Hall H;
    cbn [all_recorded blame_walk List.filter] in *.
  - injection H as <-. cbn. lia.
  - apply andb_true_iff in Hall as [Hl Hall].
    destruct (blame_step _ _ _) as [|st1] eqn:Hs; [done|].
    rewrite (IH _ Hall H).
    apply blame_step_inv in Hs as [(Hc & _ & ->)|(_ & -> & Hc)].
    + rewrite Hc. cbn [length b_line_num record_line]. lia.
    + destruct (is_content_line line); [|lia].
      destruct (Hc eq_refl) as [Hc' _]. rewrite Hc' in Hl. done.
Qed.

End BlameFacts.

(** ** process_file *)

Lemma is_content_line_tab (content : string) :
  is_content_line (String "009" content) = true.
Proof. by destruct content. Qed.

Section ProcessFile.

Variable format_date : Z → option string.
Variables git_rev_list git_blame git_log : string * list string * string → exn + string.

#[local] Abbreviation process := (process_file format_date git_rev_list git_blame git_log).
#[local] Abbreviation fails := (file_fails format_date git_rev_list git_blame git_log).

Lemma process_file_path (args : string * list string * string) :
  (process args).2.1 = args.2.
Proof. unfold process_file. by destruct (process_file_body _ _ _ _ _). Qed.

(** What [process_file] returns when nothing fails. *)
Lemma process_file_ok args rev blame_output log_output st :
  git_rev_list args = inr rev →
  git_blame args = inr blame_output →
  blame_walk format_date blame_init (Py.split "010" blame_output) = inr st →
  git_log args = inr log_output →
  (process args).2.2 =
    l_result (log_walk (mkLog None None (b_result st)) (Py.split "010" log_output)).
Proof.
  intros H1 H2 H3 H4. unfold process_file, process_file_body.
  by rewrite H1, H2, H3, H4.
Qed.

(** The result of [process_file] is empty, or comes out of the two walks. *)
Lemma process_file_cases args :
  (process args).2.2 = ∅
  ∨ ∃ blame_lines log_lines st,
      blame_walk format_date blame_init blame_lines = inr st
      ∧ (process args).2.2 =
          l_result (log_walk (mkLog None None (b_result st)) log_lines).
Proof.
  unfold process_file, process_file_body.
  destruct (git_rev_list args) as [[]|]; [by left..|].
  destruct (git_blame args) as [[]|blame_output]; [by left..|].
  destruct (blame_walk _ _ _) as [|st] eqn:Hw; [by left|].
  destruct (git_log args) as [|log_output]; [by left|].
  right. by exists (Py.split "010" blame_output), (Py.split "010" log_output), st.
Qed.

(** C3, as amended.  When nothing fails, a content line of the blame
    output whose text is not empty, met with a known and non-empty
    author, is recorded in that author's list of current lines, as the
    tuple of the line counter, the text and the current author date; a
    line whose text is empty is not recorded.  The line counter is the
    0-based position of the line in the file when every content line before it
    was recorded as well. *)
Theorem process_file_records_line args rev blame_output log_output
    (pre post : list string) (content a : string) (st final : blame_state) :
  git_rev_list args = inr rev →
  git_blame args = inr blame_output →
  git_log args = inr log_output →
  Py.split "010" blame_output = pre ++ String "009" content :: post →
  blame_walk format_date blame_init (Py.split "010" blame_output) = inr final →
  blame_walk format_date blame_init pre = inr st →
  b_author st = Some a → a ≠ "" → content ≠ "" →
  (∃ e, (process args).2.2 !! Some a = Some e
        ∧ (b_line_num st, content, b_date st) ∈ entry_lines e)
  ∧ (all_recorded format_date blame_init pre = true →
     b_line_num st = len (List.filter is_content_line pre)).
Proof.
  intros Hrev Hblame Hlog Hsplit Hfinal Hpre Ha Hane Hcne. split.
  - rewrite (process_file_ok _ _ _ _ _ Hrev Hblame Hfinal Hlog).
    rewrite Hsplit, blame_walk_app, Hpre in Hfinal. cbn [blame_walk] in Hfinal.
    destruct (blame_step _ _ _) as [|st1] eqn:Hstep; [done|].
    apply blame_step_inv in Hstep as [(_ & _ & ->)|(_ & _ & Hno)].
    2:{ destruct (Hno (is_content_line_tab _)) as [Hno' _]. rewrite Ha in Hno'.
        destruct a, content; done. }
    assert (∃ e1, b_result (record_line st (Py.drop 1 (String "009" content))) !! Some a = Some e1
                  ∧ (b_line_num st, content, b_date st) ∈ entry_lines e1) as (e1 & He1 & Hin).
    { cbn. rewrite Ha, lookup_insert_eq. eexists. split; [done|].
      cbn. apply elem_of_app. right. by left. }
    destruct (blame_walk_keeps _ _ _ _ _ _ Hfinal He1) as (e2 & He2 & Hpref).
    pose proof (log_walk_lines (Py.split "010" log_output)
                  (mkLog None None (b_result final)) (Some a)) as Hl.
    cbn [l_result] in Hl. rewrite He2 in Hl.
    destruct (l_result _ !! Some a) as [e|]; [|done].
    exists e. split; [done|]. rewrite Hl. cbn.
    destruct Hpref as [k ->]. apply elem_of_app. by left.
  - intros Hall. by rewrite (blame_walk_position _ _ _ _ Hall Hpre).
Qed.

(** A content line without text leaves the result and the counter alone. *)
Lemma blame_step_blank (st : blame_state) :
  blame_step format_date st (String "009" "") =
    inr (mkBlame (b_author st) (b_line_num st) (Some "") (b_date st) (b_email st)
                 (b_result st)).
Proof. unfold blame_step. cbn. by rewrite andb_false_r. Qed.

(** A file whose processing fails has an empty result. *)
Lemma process_file_fails args :
  fails args = true → (process args).2 = (args.2, ∅).
Proof.
  unfold file_fails, process_file, process_file_body.
  destruct (git_rev_list args) as [[]|]; [done..|].
  destruct (git_blame args) as [[]|blame_output]; [done..|].
  destruct (blame_walk _ _ _); [done|].
  destruct (git_log args); [done|]. done.
Qed.

End ProcessFile.

(** C3, counterexample.  In a file of three lines by Ann whose second line
    is blank, no tuple is recorded for the blank line, and the third line
    is recorded under the number 1, not under its position 2. *)
Lemma blame_blank_line_shifts_numbers :
  List.filter is_content_line (Py.split "010" Sample.blame_blank)
    = [Sample.tab +:+ "foo"; Sample.tab; Sample.tab +:+ "bar"]
  ∧ blame_walk Sample.format_date blame_init (Py.split "010" Sample.blame_blank)
    = inr (mkBlame (Some "Ann") 2 (Some "bar") (Some "2024-01-01") (Some "ann@x.org")
             {[ Some "Ann" :=
                  ([(0, "foo", Some "2024-01-01"); (1, "bar", Some "2024-01-01")],
                   0, Some "2024-01-01", Some "ann@x.org") ]}).
Proof. split; by vm_compute. Qed.

(** ** Merging the per-file results *)

Section Merge.

Variable parseaddr : string → string.

#[local] Abbreviation merge_author' := (merge_author parseaddr).
#[local] Abbreviation merge_file' := (merge_file parseaddr).
#[local] Abbreviation merge_view' := (merge_view parseaddr).

Lemma analyzer_eq (s1 s2 : GitContributorAnalyzer) :
  same_config s1 s2 → (∀ a, view s1 a = view s2 a) → s1 = s2.
Proof.
  intros (H1 & H2 & H3 & H4) Hv. destruct s1, s2; cbn in *. subst.
  f_equal; apply map_eq; intros a; specialize (Hv a); unfold view in Hv;
    cbn in Hv; congruence.
Qed.

#[global] Instance same_config_equiv : Equivalence same_config.
Proof.
  split.
  - by intros s.
  - intros s1 s2 (?&?&?&?). by split_and!.
  - intros s1 s2 s3 (?&?&?&?) (?&?&?&?). split_and!; congruence.
Qed.

Lemma merge_author_config f self item : same_config (merge_author' f self item) self.
Proof.
  destruct item as [a [[[lines count] lm] [[|c em]|]]]; by cbn.
Qed.

Lemma merge_author_view f self a e :
  view (merge_author' f self (a, e)) a = merge_view' f e (view self a).
Proof.
  destruct e as [[[lines count] lm] [[|c em]|]]; unfold view; cbn;
    rewrite ?lookup_insert_eq; try done.
  destruct (extract_email_domain parseaddr (String c em)) as [[|d dom]|];
    by rewrite ?lookup_insert_eq.
Qed.

Lemma merge_author_view_ne f self a e a' :
  a ≠ a' → view (merge_author' f self (a, e)) a' = view self a'.
Proof.
  intros Hne. destruct e as [[[lines count] lm] [[|c em]|]]; unfold view; cbn;
    rewrite ?lookup_insert_ne by done; try done.
  destruct (extract_email_domain parseaddr (String c em)) as [[|d dom]|];
    by rewrite ?lookup_insert_ne by done.
Qed.

Lemma foldl_merge_author_config f (items : list (option string * file_entry)) self :
  same_config (foldl (merge_author' f) self items) self.
Proof.
  revert self. induction items as [|item items IH]; intros self; [done|].
  cbn [foldl]. etrans; [apply IH|]. apply merge_author_config.
Qed.

Lemma foldl_merge_author_notin f (items : list (option string * file_entry)) self a :
  a ∉ items.*1 → view (foldl (merge_author' f) self items) a = view self a.
Proof.
  revert self. induction items as [|[a1 e1] items IH]; intros self Hnotin; [done|].
  rewrite fmap_cons in Hnotin. cbn [foldl fst] in *.
  apply not_elem_of_cons in Hnotin as [Hne Hnotin].
  rewrite IH by done. by apply merge_author_view_ne.
Qed.

Lemma foldl_merge_author_in f (items : list (option string * file_entry)) self a e :
  NoDup items.*1 → (a, e) ∈ items →
  view (foldl (merge_author' f) self items) a = merge_view' f e (view self a).
Proof.
  revert self. induction items as [|[a1 e1] items IH]; intros self Hnd Hin.
  { by apply elem_of_nil in Hin. }
  rewrite fmap_cons in Hnd. cbn [foldl fst] in *.
  apply NoDup_cons in Hnd as [Hnotin Hnd].
  apply elem_of_cons in Hin as [[= <- <-]|Hin].
  - rewrite foldl_merge_author_notin by done. apply merge_author_view.
  - rewrite IH by done. rewrite merge_author_view_ne; [done|].
    intros ->. apply Hnotin. apply list_elem_of_fmap. by exists (a, e).
Qed.

(** Merging a per-file result changes what the aggregate holds about the
    authors of the result, and about no one else. *)
Lemma merge_file_view (self : GitContributorAnalyzer) (f : string)
    (res : file_results) (a : option string) :
  view (merge_file' self (f, res)) a =
    match res !! a with
    | Some e => merge_view' f e (view self a)
    | None => view self a
    end.
Proof.
  unfold merge_file. cbn [fst snd].
  destruct (res !! a) as [e|] eqn:Ha.
  - apply foldl_merge_author_in; [apply NoDup_fst_map_to_list|].
    by apply elem_of_map_to_list.
  - apply foldl_merge_author_notin. intros [[a' e] [? Hin]]%list_elem_of_fmap.
    cbn in *; subst a'. apply elem_of_map_to_list in Hin. congruence.
Qed.

Lemma merge_file_config (self : GitContributorAnalyzer) (r : string * file_results) : same_config (merge_file' self r) self.
Proof. apply foldl_merge_author_config. Qed.

Lemma merge_file_empty (self : GitContributorAnalyzer) (f : string) : merge_file' self (f, ∅) = self.
Proof. unfold merge_file. cbn. by rewrite map_to_list_empty. Qed.

Lemma union_swap (x y : string) (X : gset string) :
  {[x]} ∪ ({[y]} ∪ X) = {[y]} ∪ ({[x]} ∪ X).
Proof. by rewrite !(assoc_L (∪)), (comm_L (∪) {[x]}). Qed.

Lemma merge_view_comm (f1 f2 : string) (e1 e2 : file_entry) v :
  f1 ≠ f2 → merge_view' f1 e1 (merge_view' f2 e2 v) = merge_view' f2 e2 (merge_view' f1 e1 v).
Proof.
  intros Hne. destruct v as [[stats emails] companies]. unfold merge_view.
  f_equal; [f_equal|].
  - cbn. rewrite !lookup_insert_ne by done. f_equal. by apply insert_insert_ne.
  - destruct (entry_email e1) as [[|c1 em1]|], (entry_email e2) as [[|c2 em2]|];
      try done. cbn. f_equal. apply union_swap.
  - destruct (entry_email e1) as [[|c1 em1]|], (entry_email e2) as [[|c2 em2]|];
      try done.
    destruct (extract_email_domain parseaddr (String c1 em1)) as [[|? d1]|],
             (extract_email_domain parseaddr (String c2 em2)) as [[|? d2]|];
      try done. cbn. f_equal. apply union_swap.
Qed.

(** Results for two different files can be merged in either order. *)
Lemma merge_file_comm (self : GitContributorAnalyzer) (r1 r2 : string * file_results) :
  r1.1 ≠ r2.1 →
  merge_file' (merge_file' self r1) r2 = merge_file' (merge_file' self r2) r1.
Proof.
  destruct r1 as [f1 res1], r2 as [f2 res2]. cbn. intros Hne.
  apply analyzer_eq.
  - by rewrite !merge_file_config.
  - intros a. rewrite !merge_file_view.
    destruct (res1 !! a), (res2 !! a); try done. by apply merge_view_comm.
Qed.

End Merge.

(** ** analyze_repository *)

Section Analyze.

Variable fnmatch : string → string → bool.
Variable parseaddr : string → string.
Variable format_date : Z → option string.
Variable cpu_count : nat.
Variable git_ls_files : string → exn + string.
Variables git_rev_list git_blame git_log : string * list string * string → exn + string.

#[local] Abbreviation process := (process_file format_date git_rev_list git_blame git_log).
#[local] Abbreviation fails := (file_fails format_date git_rev_list git_blame git_log).
#[local] Abbreviation merge := (merge_file parseaddr).
#[local] Abbreviation analyze :=
  (analyze_repository fnmatch parseaddr format_date cpu_count git_ls_files
                      git_rev_list git_blame git_log).

Lemma collect_spec (n i : nat) (self : GitContributorAnalyzer) (results : list (string * file_results)) :
  collect parseaddr n i self results =
    (map (fun k => Print (Processed k n)) (seq i (length results)),
     inr (foldl merge self results)).
Proof.
  revert i self. induction results as [|r results IH]; intros i self; [done|].
  cbn [collect length seq map foldl]. unfold mbind, M_bind, emit.
  rewrite IH. done.
Qed.

(** When the listing succeeds, the analysis completes, and ends with the
    results of the tasks merged in the order of their completion. *)
Lemma analyze_repository_ok pool_order (self : GitContributorAnalyzer)
    file_extensions (out : string) :
  git_ls_files (repo_path self) = inr out →
  outcome (analyze pool_order self file_extensions) =
    inr (foldl merge self
           (map (fun a => (process a).2)
                (pool_order (tasks_of fnmatch self file_extensions out)))).
Proof.
  intros H. unfold analyze_repository. rewrite H.
  unfold mbind, M_bind, emit, outcome. rewrite collect_spec. done.
Qed.

Lemma analyze_repository_listing_fails pool_order (self : GitContributorAnalyzer)
    file_extensions :
  git_ls_files (repo_path self) = inl CalledProcessError →
  analyze pool_order self file_extensions = ([Print ErrorListing], inr self).
Proof. intros H. unfold analyze_repository. by rewrite H. Qed.

Lemma foldl_merge_skip_failed (self : GitContributorAnalyzer) (tasks : list (string * list string * string)) :
  foldl merge self (map (fun a => (process a).2) tasks) =
  foldl merge self
    (map (fun a => (process a).2) (List.filter (fun a => negb (fails a)) tasks)).
Proof.
  revert self. induction tasks as [|a tasks IH]; intros self; [done|].
  cbn [map foldl List.filter]. destruct (fails a) eqn:Hf; cbn [negb map foldl].
  - rewrite (process_file_fails _ _ _ _ _ Hf), merge_file_empty. apply IH.
  - apply IH.
Qed.

(** C5.  A file whose processing fails, by a git command that exits with
    an error or by any exception, yields the empty result; and when the
    listing succeeded the analysis completes, in the state that merging
    the results of the other files alone gives. *)
Theorem failing_file_contributes_nothing pool_order (self : GitContributorAnalyzer)
    file_extensions (out : string) :
  git_ls_files (repo_path self) = inr out →
  (∀ a, fails a = true → (process a).2 = (a.2, ∅))
  ∧ outcome (analyze pool_order self file_extensions) =
      inr (foldl merge self
             (map (fun a => (process a).2)
                  (List.filter (fun a => negb (fails a))
                     (pool_order (tasks_of fnmatch self file_extensions out))))).
Proof.
  intros H. split.
  - intros a. apply process_file_fails.
  - rewrite (analyze_repository_ok _ _ _ _ H). f_equal. apply foldl_merge_skip_failed.
Qed.

Lemma merge_file_absent (f : string) (self : GitContributorAnalyzer) (r : string * file_results) :
  r.1 ≠ f → absent f self → absent f (merge self r).
Proof.
  destruct r as [f' res]. cbn. intros Hne Habs a by_file Ha.
  pose proof (merge_file_view parseaddr self f' res a) as Hv.
  unfold view in Hv. rewrite Ha in Hv.
  destruct (res !! a) as [e|].
  - unfold merge_view in Hv. injection Hv as -> _ _.
    rewrite lookup_insert_ne by done.
    destruct (contributor_stats self !! a) as [bf|] eqn:Hbf; cbn; [by eapply Habs|done].
  - injection Hv as Hv _ _. by eapply Habs.
Qed.

Lemma foldl_merge_absent (f : string) (results : list (string * file_results))
    (self : GitContributorAnalyzer) :
  Forall (fun r => r.1 ≠ f) results → absent f self →
  absent f (foldl merge self results).
Proof.
  revert self. induction results as [|r results IH]; intros self Hall Habs; [done|].
  apply Forall_cons in Hall as [Hr Hall]. cbn [foldl].
  apply IH; [done|]. by apply merge_file_absent.
Qed.

Lemma foldl_merge_config (results : list (string * file_results))
    (self : GitContributorAnalyzer) :
  same_config (foldl merge self results) self.
Proof.
  revert self. induction results as [|r results IH]; intros self; [done|].
  cbn [foldl]. etrans; [apply IH|]. apply merge_file_config.
Qed.

(** C6.  A file that the path or pattern filter excludes has no
    contribution record in any author's entry once [analyze_repository]
    has completed, the aggregate having held none for it before and the
    pool handing back the tasks it was given. *)
Theorem excluded_file_has_no_record pool_order (self self' : GitContributorAnalyzer)
    file_extensions (f : string) :
  (∀ tasks, pool_order tasks ≡ₚ tasks) →
  absent f self →
  should_exclude_file fnmatch self f = true →
  outcome (analyze pool_order self file_extensions) = inr self' →
  ∀ a by_file, contributor_stats self' !! a = Some by_file → by_file !! f = None.
Proof.
  intros Hpool Habs Hex Hout. change (absent f self').
  destruct (git_ls_files (repo_path self)) as [e|out] eqn:Hls.
  - unfold analyze_repository in Hout. rewrite Hls in Hout.
    destruct e; cbn in Hout; try done. by injection Hout as <-.
  - rewrite (analyze_repository_ok _ _ _ _ Hls) in Hout. injection Hout as <-.
    apply foldl_merge_absent; [|done].
    apply Forall_forall. intros r Hr.
    apply list_elem_of_In, in_map_iff in Hr as [a [<- Ha]].
    rewrite process_file_path.
    apply list_elem_of_In in Ha. rewrite Hpool in Ha. apply list_elem_of_In in Ha.
    unfold tasks_of in Ha. apply in_map_iff in Ha as [f' [<- Hf']]. cbn.
    apply filter_In in Hf' as [_ Hkeep]. intros ->.
    unfold keep_file in Hkeep. rewrite Hex in Hkeep.
    by rewrite andb_false_r in Hkeep.
Qed.

(** Results can be merged in any order, when two results for the same
    file are the same result. *)
Lemma foldl_merge_perm (l1 l2 : list (string * file_results)) :
  l1 ≡ₚ l2 →
  (∀ r r', r ∈ l1 → r' ∈ l1 → r.1 = r'.1 → r = r') →
  ∀ self, foldl merge self l1 = foldl merge self l2.
Proof.
  induction 1 as [|x l l' Hp IH|x y l|l l' l'' Hp1 IH1 Hp2 IH2]; intros Hcons self.
  - done.
  - cbn [foldl]. apply IH. intros r r' Hr Hr'. apply Hcons; by right.
  - cbn [foldl]. f_equal. destruct (decide (x.1 = y.1)) as [Heq|Hne].
    + assert (x = y) as -> by (apply Hcons; [right; left|left|done]). done.
    + symmetry. by apply merge_file_comm.
  - rewrite IH1 by done. apply IH2. intros r r' Hr Hr'.
    rewrite <-Hp1 in Hr, Hr'. by apply Hcons.
Qed.

(** C9.  The aggregate that [analyze_repository] ends with does not depend
    on the order in which the pool completes the tasks: two orders that
    are permutations of the submitted tasks give the same statistics,
    emails and companies. *)
Theorem analyze_repository_order_independent pool_order1 pool_order2
    (self : GitContributorAnalyzer) file_extensions :
  (∀ tasks, pool_order1 tasks ≡ₚ tasks) →
  (∀ tasks, pool_order2 tasks ≡ₚ tasks) →
  outcome (analyze pool_order1 self file_extensions) =
  outcome (analyze pool_order2 self file_extensions).
Proof.
  intros H1 H2.
  destruct (git_ls_files (repo_path self)) as [e|out] eqn:Hls.
  - unfold analyze_repository. by rewrite Hls.
  - rewrite !(analyze_repository_ok _ _ _ _ Hls). f_equal.
    apply foldl_merge_perm.
    + apply Permutation_map. by rewrite H1, H2.
    + intros r r' Hr Hr'.
      apply list_elem_of_In, in_map_iff in Hr as [a [<- Ha]].
      apply list_elem_of_In, in_map_iff in Hr' as [a' [<- Ha']].
      rewrite !process_file_path. intros Heq.
      apply list_elem_of_In in Ha, Ha'. rewrite H1 in Ha, Ha'.
      apply list_elem_of_In in Ha, Ha'. unfold tasks_of in Ha, Ha'.
      apply in_map_iff in Ha as [f [<- _]]. apply in_map_iff in Ha' as [f' [<- _]].
      cbn in Heq. by subst.
Qed.

End Analyze.

(** ** The invariant of process_file *)

Section Invariant.

Variable format_date : Z → option string.

Lemma blame_inv_init : blame_inv blame_init.
Proof. split_and!; try done; intros *; by rewrite lookup_empty. Qed.

Lemma blame_inv_record (st : blame_state) (content : string) :
  blame_inv st → blame_inv (record_line st content).
Proof.
  intros ((Hnd & Hdis) & Hlt & Hcount & Hpos).
  set (au := b_author st).
  assert (entry_count (result_get (b_result st) au) = 0
          ∧ NoDup (line_no <$> entry_lines (result_get (b_result st) au))
          ∧ (∀ x, x ∈ entry_lines (result_get (b_result st) au) →
               0 ≤ line_no x < b_line_num st)
          ∧ (∀ b eb x y, b_result st !! b = Some eb → au ≠ b →
               x ∈ entry_lines (result_get (b_result st) au) →
               y ∈ entry_lines eb → line_no x ≠ line_no y)) as (H0 & H1 & H2 & H3).
  { unfold result_get. destruct (b_result st !! au) as [e0|] eqn:He0; cbn.
    - split_and!; eauto.
    - split_and!; [done|constructor|..]; intros *; try intros ? ?;
        by intros ?%elem_of_nil. }
  unfold record_line. fold au. unfold blame_inv. cbn [b_result b_line_num].
  split_and!; [split|..].
  - intros a e. destruct (decide (au = a)) as [<-|Hne].
    + rewrite lookup_insert_eq. intros [= <-]. cbn.
      rewrite fmap_app. apply NoDup_app. split_and!; [done| |apply NoDup_singleton].
      intros n Hn Hn'. apply list_elem_of_fmap in Hn as [x [Hnx Hx]].
      apply list_elem_of_singleton in Hn'. apply H2 in Hx. cbn in Hn'. lia.
    + rewrite lookup_insert_ne by done. apply Hnd.
  - intros a b ea eb x y.
    destruct (decide (au = a)) as [<-|Hna], (decide (au = b)) as [<-|Hnb];
      rewrite ?lookup_insert_eq, ?lookup_insert_ne by done.
    + done.
    + intros [= <-] Hb _. cbn. intros [Hx|Hx%list_elem_of_singleton]%elem_of_app Hy.
      * by eapply H3.
      * subst x. eapply Hlt in Hy; [|done]. cbn. lia.
    + intros Ha [= <-] _ Hx. cbn. intros [Hy|Hy%list_elem_of_singleton]%elem_of_app.
      * intros Heq. by eapply (H3 a ea y x).
      * subst y. eapply Hlt in Hx; [|done]. cbn. lia.
    + apply Hdis.
  - intros a e x. destruct (decide (au = a)) as [<-|Hne].
    + rewrite lookup_insert_eq. intros [= <-]. cbn.
      intros [Hx|Hx%list_elem_of_singleton]%elem_of_app.
      * apply H2 in Hx. lia.
      * subst x. cbn. lia.
    + rewrite lookup_insert_ne by done. intros Ha Hx.
      pose proof (Hlt _ _ _ Ha Hx). lia.
  - intros a e. destruct (decide (au = a)) as [<-|Hne].
    + rewrite lookup_insert_eq. by intros [= <-].
    + rewrite lookup_insert_ne by done. apply Hcount.
  - lia.
Qed.

Lemma blame_inv_step (st st' : blame_state) (line : string) :
  blame_step format_date st line = inr st' → blame_inv st → blame_inv st'.
Proof.
  intros [(_ & _ & ->)|(Hr & Hn & _)]%blame_step_inv Hinv.
  - by apply blame_inv_record.
  - unfold blame_inv. by rewrite Hr, Hn.
Qed.

Lemma blame_inv_walk (lines : list string) (st st' : blame_state) :
  blame_walk format_date st lines = inr st' → blame_inv st → blame_inv st'.
Proof.
  revert st. induction lines as [|line lines IH]; intros st H Hinv; cbn in H.
  - by injection H as <-.
  - destruct (blame_step _ _ _) as [|st1] eqn:Hs; [done|].
    eapply IH; [done|]. by eapply blame_inv_step.
Qed.

Variables git_rev_list git_blame git_log : string * list string * string → exn + string.

#[local] Abbreviation process := (process_file format_date git_rev_list git_blame git_log).

Lemma process_file_result_inv (args : string * list string * string) :
  distinct_numbers (process args).2.2
  ∧ ∀ a e, (process args).2.2 !! a = Some e → 0 ≤ entry_count e.
Proof.
  destruct (process_file_cases format_date git_rev_list git_blame git_log args)
    as [->|(blame_lines & log_lines & st & Hwalk & ->)].
  { split_and!; [split|]; intros *; by rewrite lookup_empty. }
  apply blame_inv_walk in Hwalk as ((Hnd & Hdis) & _ & Hcount & _);
    [|apply blame_inv_init].
  set (r' := l_result _).
  assert (∀ a e', r' !! a = Some e' →
            entry_lines e' = from_option entry_lines [] (b_result st !! a)
            ∧ from_option entry_count 0 (b_result st !! a) ≤ entry_count e') as Hlog.
  { intros a e' He'.
    pose proof (log_walk_lines log_lines (mkLog None None (b_result st)) a) as H1.
    pose proof (log_walk_count log_lines (mkLog None None (b_result st)) a) as H2.
    fold r' in H1, H2. rewrite He' in H1, H2. done. }
  split_and!; [split|].
  - intros a e' [Hl _]%Hlog. rewrite Hl.
    destruct (b_result st !! a) as [e|] eqn:He; cbn; [by eapply Hnd|constructor].
  - intros a b ea eb x y [Ha _]%Hlog [Hb _]%Hlog Hne. rewrite Ha, Hb.
    destruct (b_result st !! a) as [e1|] eqn:H1; cbn; [|by intros ?%elem_of_nil].
    destruct (b_result st !! b) as [e2|] eqn:H2; cbn; [|by intros _ ?%elem_of_nil].
    by eapply Hdis.
  - intros a e' [_ Hc]%Hlog.
    destruct (b_result st !! a) as [e|] eqn:He; cbn in Hc; [|done].
    apply Hcount in He. lia.
Qed.

(** C10.  In the result of [process_file] for a file, the line numbers
    recorded in the lists of current lines are pairwise distinct, within
    an author's list and across the authors, and no historical count is
    negative. *)
Theorem process_file_numbers_distinct_counts_nonneg
    (args : string * list string * string) :
  let r := (process args).2.2 in
  (∀ a e, r !! a = Some e → NoDup (line_no <$> entry_lines e))
  ∧ (∀ a b ea eb x y,
       r !! a = Some ea → r !! b = Some eb → a ≠ b →
       x ∈ entry_lines ea → y ∈ entry_lines eb → line_no x ≠ line_no y)
  ∧ (∀ a e, r !! a = Some e → 0 ≤ entry_count e).
Proof.
  destruct (process_file_result_inv args) as ((H1 & H2) & H3). by split_and!.
Qed.

End Invariant.

(** ** Reports *)

Lemma foldl_add (l : list Z) (a : Z) : foldl Z.add a l = a + foldr Z.add 0 l.
Proof.
  revert a. induction l as [|x l IH]; intros a; cbn; [lia|]. rewrite IH. lia.
Qed.

Lemma py_sum_map_values {A} (g : A → Z) (l : list (string * A)) :
  py_sum (map g l.*2) = foldr (uncurry (fun (_ : string) x total => g x + total)) 0 l.
Proof.
  unfold py_sum. rewrite foldl_add, Z.add_0_l.
  induction l as [|[k x] l IH]; cbn; [done|]. by rewrite IH.
Qed.

(** The two sums of the JSON and text reports are the totals of the
    specification. *)
Lemma sum_totals_spec (file_stats : gmap string FileContribution) :
  sum_totals file_stats = (spec_current_total file_stats, spec_historical_total file_stats).
Proof.
  unfold sum_totals, spec_current_total, spec_historical_total, values, len.
  by rewrite !map_fold_foldr, !py_sum_map_values.
Qed.

(** So are the two counters of the CSV report. *)
Lemma csv_totals_spec (file_stats : gmap string FileContribution) :
  csv_totals file_stats = (spec_current_total file_stats, spec_historical_total file_stats).
Proof.
  unfold csv_totals, spec_current_total, spec_historical_total, values, len.
  rewrite !map_fold_foldr.
  generalize (map_to_list file_stats). intros l.
  enough (∀ c h,
    foldl (fun '(c, h) stats =>
             (c + Z.of_nat (length (current_lines stats)), h + historical_lines stats))
          (c, h) l.*2
    = (c + foldr (uncurry (fun (_ : string) stats total =>
                             Z.of_nat (length (current_lines stats)) + total)) 0 l,
       h + foldr (uncurry (fun (_ : string) stats total =>
                             historical_lines stats + total)) 0 l)) as H.
  { by rewrite H. }
  induction l as [|[k x] l IH]; intros c h; cbn.
  - by rewrite !Z.add_0_r.
  - rewrite IH. f_equal; lia.
Qed.

Lemma sorted_authors_perm (names authors : list (option string)) :
  sorted_authors names = inr authors → authors ≡ₚ names.
Proof.
  unfold sorted_authors. destruct names as [|a [|b names]]; [by intros [= <-]..|].
  destruct (mapM id _) as [l|] eqn:Hl; [|done]. intros [= <-].
  rewrite merge_sort_Permutation.
  apply (mapM_fmap_Some_inv _ Some) in Hl; [by rewrite Hl|]. by intros x y [= ->].
Qed.

Lemma elem_of_keys {V} (d : gmap (option string) V) (a : option string) :
  a ∈ keys d ↔ is_Some (d !! a).
Proof.
  unfold keys. rewrite list_elem_of_fmap. split.
  - intros [[a' x] [-> Hin]]. apply elem_of_map_to_list in Hin. by exists x.
  - intros [x Hx]. exists (a, x). split; [done|]. by apply elem_of_map_to_list.
Qed.

Section Reports.

Variable now : string.

#[local] Abbreviation gen := (generate_report now).

Lemma json_contributor_totals (self : GitContributorAnalyzer) (a : option string)
    (fs : gmap string FileContribution) :
  (total_current_lines (json_contributor_of self a fs),
   total_historical_lines (json_contributor_of self a fs))
  = (spec_current_total fs, spec_historical_total fs).
Proof. unfold json_contributor_of. by rewrite sum_totals_spec. Qed.

Lemma json_report_faithful (self : GitContributorAnalyzer) (output_file : string) :
  ∃ doc, _generate_json_report now self output_file
           = ([WriteFile output_file doc], inr tt)
         ∧ faithful self true doc.
Proof.
  eexists. split; [reflexivity|]. split.
  - intros a t Hin. cbn in Hin.
    apply list_elem_of_In, in_map_iff in Hin as [[a' c] [[= -> <-] Hin]].
    apply list_elem_of_In, elem_of_map_to_list in Hin.
    rewrite map_lookup_imap in Hin.
    destruct (contributor_stats self !! a) as [fs|]; [|done].
    injection Hin as <-. exists fs. split; [done|].
    apply json_contributor_totals.
  - intros _ a fs Ha. cbn. apply list_elem_of_In, in_map_iff.
    exists (a, json_contributor_of self a fs). split.
    + by rewrite json_contributor_totals.
    + apply list_elem_of_In, elem_of_map_to_list.
      rewrite map_lookup_imap, Ha. done.
Qed.

Lemma csv_row_totals (self : GitContributorAnalyzer) (a : option string)
    (fs : gmap string FileContribution) :
  contributor_stats self !! a = Some fs →
  (csv_name (csv_row_of self a),
   (csv_current_lines (csv_row_of self a), csv_total_lines (csv_row_of self a)))
  = (a, (spec_current_total fs, spec_historical_total fs)).
Proof. intros Ha. unfold csv_row_of. by rewrite Ha, csv_totals_spec. Qed.

Lemma csv_report_faithful (self : GitContributorAnalyzer) (output_file : string) :
  ∃ doc r, _generate_csv_report self output_file = ([WriteFile output_file doc], r)
           ∧ faithful self (negb (raises r)) doc.
Proof.
  unfold _generate_csv_report.
  destruct (sorted_authors _) as [e|authors] eqn:Hs.
  - eexists _, _. split; [reflexivity|]. split; [|done].
    intros a t Hin. by apply elem_of_nil in Hin.
  - apply sorted_authors_perm in Hs.
    eexists _, _. split; [reflexivity|]. split.
    + intros a t Hin. cbn in Hin.
      apply list_elem_of_In, in_map_iff in Hin as [row [Hrow Hin]].
      apply in_map_iff in Hin as [a' [<- Hin]].
      apply list_elem_of_In in Hin. rewrite Hs in Hin.
      apply elem_of_keys in Hin as [fs Hfs].
      rewrite (csv_row_totals _ _ _ Hfs) in Hrow. injection Hrow as <- <-.
      by exists fs.
    + intros _ a fs Ha. cbn. apply list_elem_of_In, in_map_iff.
      exists (csv_row_of self a). split; [by apply csv_row_totals|].
      apply in_map, list_elem_of_In. rewrite Hs. apply elem_of_keys. by exists fs.
Qed.

Lemma text_report_faithful (self : GitContributorAnalyzer) (output_file : string)
    (no_sample_code : bool) :
  ∃ doc, _generate_text_report self output_file no_sample_code
           = ([WriteFile output_file doc], inr tt)
         ∧ faithful self true doc.
Proof.
  eexists. split; [reflexivity|].
  assert (∀ entries a t,
    entries ≡ₚ map text_entry_of (map_to_list (contributor_stats self)) →
    (a, t) ∈ reported_totals (TextReport entries)
    ↔ ∃ fs, contributor_stats self !! a = Some fs
            ∧ t = (spec_current_total fs, spec_historical_total fs)) as H.
  { intros entries a t Hp. cbn [reported_totals].
    rewrite list_elem_of_In, in_map_iff. split.
    - intros [[[a' c] h] [[= -> <-] Hin]].
      apply list_elem_of_In in Hin. rewrite Hp in Hin.
      apply list_elem_of_In, in_map_iff in Hin as [[a' fs] [Heq Hin]].
      unfold text_entry_of in Heq.
      rewrite sum_totals_spec in Heq. injection Heq as -> <- <-.
      apply list_elem_of_In, elem_of_map_to_list in Hin. by exists fs.
    - intros (fs & Ha & ->).
      exists (a, spec_current_total fs, spec_historical_total fs). split; [done|].
      apply list_elem_of_In. rewrite Hp.
      apply list_elem_of_In, in_map_iff. exists (a, fs).
      unfold text_entry_of. rewrite sum_totals_spec. split; [done|].
      by apply list_elem_of_In, elem_of_map_to_list. }
  pose proof (fun a t => H _ a t (merge_sort_Permutation by_current_desc _)) as H'.
  split.
  - intros a t Hin. by apply H'.
  - intros _ a fs Ha. apply H'. by exists fs.
Qed.

Lemma generate_report_faithful (self : GitContributorAnalyzer)
    (output_file output_format : string) (no_sample_code : bool) :
  ∃ doc r, gen self output_file output_format no_sample_code
             = ([WriteFile output_file doc], r)
           ∧ faithful self (negb (raises r)) doc.
Proof.
  unfold generate_report.
  destruct (String.eqb output_format "json").
  { destruct (json_report_faithful self output_file) as (doc & -> & H).
    by exists doc, (inr tt). }
  destruct (String.eqb output_format "csv").
  { apply csv_report_faithful. }
  destruct (text_report_faithful self output_file no_sample_code) as (doc & -> & H).
  by exists doc, (inr tt).
Qed.

(** C7.  Whatever the output format, each total that a report gives for
    an author is the total of the specification for that author: the
    current total is the sum, over the author's files, of the length of
    the file's list of current lines, and the historical total the sum of
    the historical counts.  A report that was written to the end gives them
    for every author of the aggregate; and so two reports of one aggregate,
    the CSV and the JSON report among them, give the same totals for an
    author. *)
Theorem reported_totals_are_sums (self : GitContributorAnalyzer)
    (output_file output_format : string) (no_sample_code : bool)
    (f : string) (doc : report) :
  (f, doc) ∈ written (gen self output_file output_format no_sample_code) →
  (∀ a c h, (a, (c, h)) ∈ reported_totals doc →
     ∃ file_stats, contributor_stats self !! a = Some file_stats
       ∧ c = spec_current_total file_stats
       ∧ h = spec_historical_total file_stats)
  ∧ (outcome (gen self output_file output_format no_sample_code) = inr tt →
     ∀ a file_stats, contributor_stats self !! a = Some file_stats →
       (a, (spec_current_total file_stats, spec_historical_total file_stats))
         ∈ reported_totals doc)
  ∧ (∀ f' doc' output_file' output_format' a t t',
       (f', doc') ∈ written (gen self output_file' output_format' no_sample_code) →
       (a, t) ∈ reported_totals doc → (a, t') ∈ reported_totals doc' → t = t').
Proof.
  intros Hw.
  destruct (generate_report_faithful self output_file output_format no_sample_code)
    as (doc0 & r & Hgen & Hsound & Hcomplete).
  rewrite Hgen in Hw |- *. cbn in Hw. apply list_elem_of_singleton in Hw as [= -> ->].
  split_and!.
  - intros a c h Hin. destruct (Hsound _ _ Hin) as (fs & Ha & [= -> ->]). by exists fs.
  - cbn. intros ->. by apply Hcomplete.
  - intros f' doc' output_file' output_format' a t t' Hw' Hin Hin'.
    destruct (generate_report_faithful self output_file' output_format' no_sample_code)
      as (doc1 & r1 & Hgen1 & Hsound1 & _).
    rewrite Hgen1 in Hw'. cbn in Hw'.
    apply list_elem_of_singleton in Hw' as [= -> ->].
    destruct (Hsound _ _ Hin) as (fs & Ha & ->).
    destruct (Hsound1 _ _ Hin') as (fs1 & Ha1 & ->). congruence.
Qed.

End Reports.

(** ** An author who is only in the history *)




Section HistoryOnly.

Variable parseaddr : string → string.

#[local] Abbreviation merge := (merge_file parseaddr).






End HistoryOnly.

Section HistoryOnlyReport.

Variable fnmatch : string → string → bool.
Variable parseaddr : string → string.
Variable format_date : Z → option string.
Variable cpu_count : nat.
Variable now : string.
Variable git_ls_files : string → exn + string.
Variables git_rev_list git_blame git_log : string * list string * string → exn + string.

#[local] Abbreviation process := (process_file format_date git_rev_list git_blame git_log).
#[local] Abbreviation analyze :=
  (analyze_repository fnmatch parseaddr format_date cpu_count git_ls_files
                      git_rev_list git_blame git_log).
#[local] Abbreviation gen := (generate_report now).



End HistoryOnlyReport.

(** ** main *)

Section Main.

Variable fnmatch : string → string → bool.
Variable parseaddr : string → string.
Variable format_date : Z → option string.
Variable cpu_count : nat.
Variable now : string.
Variable git_ls_files : string → exn + string.
Variables git_rev_list git_blame git_log : string * list string * string → exn + string.

#[local] Abbreviation run :=
  (main fnmatch parseaddr format_date cpu_count now git_ls_files
        git_rev_list git_blame git_log).

(** C4, as amended.  When the listing of the repository's files exits with
    an error, [main] prints the error message and processes no file, and
    goes on to write a report, one without any contributor, and to
    announce it; it does not abort. *)
Theorem listing_failure_writes_empty_report pool_order (args : Args) :
  git_ls_files (a_repo_path args) = inl CalledProcessError →
  ∃ doc,
    run pool_order args =
      ([Print ErrorListing;
        WriteFile (output_file_of args) doc;
        Print (ReportWritten (output_file_of args))], inr tt)
    ∧ reported_totals doc = [].
Proof.
  intros H. unfold main.
  rewrite analyze_repository_listing_fails by done.
  destruct (a_format args); eexists; (split; [reflexivity|reflexivity]).
Qed.

End Main.

(** C4, counterexample.  With a listing that fails, the run ends normally
    and a report has been written. *)
Lemma listing_failure_does_not_abort :
  let run :=
    main Sample.fnmatch Sample.parseaddr Sample.format_date 4 "now"
         Sample.git_ls_files_fails Sample.git_rev_list Sample.git_blame Sample.git_log
         Sample.pool_order (Sample.args csv) in
  outcome run = inr tt ∧ written run = [("out.csv", CsvReport [])].
Proof. split; reflexivity. Qed.

Lemma listing_failure_writes_empty_report_witness :
  ∃ doc,
    main Sample.fnmatch Sample.parseaddr Sample.format_date 4 "now"
         Sample.git_ls_files_fails Sample.git_rev_list Sample.git_blame Sample.git_log
         Sample.pool_order (Sample.args json) =
      ([Print ErrorListing;
        WriteFile (output_file_of (Sample.args json)) doc;
        Print (ReportWritten (output_file_of (Sample.args json)))], inr tt)
    ∧ reported_totals doc = [].
Proof.
  apply (listing_failure_writes_empty_report Sample.fnmatch Sample.parseaddr
           Sample.format_date 4 "now" Sample.git_ls_files_fails).
  reflexivity.
Defined.

(** ** The properties on the sample repository *)

Lemma pool_order_perm (tasks : list (string * list string * string)) :
  Sample.pool_order tasks ≡ₚ tasks.
Proof. unfold Sample.pool_order. symmetry. apply Permutation_rev. Qed.

Lemma process_file_records_line_witness :
  (∃ e, (process_file Sample.format_date Sample.git_rev_list Sample.git_blame
           Sample.git_log ("repo", ["HEAD"], "f.py")).2.2 !! Some "Ann" = Some e
        ∧ (0, "foo", Some "2024-01-01") ∈ entry_lines e)
  ∧ (all_recorded Sample.format_date blame_init
       ["author Ann"; "author-mail <ann@x.org>"; "author-time 0"] = true →
     0 = len (List.filter is_content_line
                ["author Ann"; "author-mail <ann@x.org>"; "author-time 0"])).
Proof.
  apply (process_file_records_line Sample.format_date Sample.git_rev_list
           Sample.git_blame Sample.git_log ("repo", ["HEAD"], "f.py")
           "0123abc" Sample.blame_ann Sample.log_ann_bob
           ["author Ann"; "author-mail <ann@x.org>"; "author-time 0"] []
           "foo" "Ann"
           (mkBlame (Some "Ann") 0 None (Some "2024-01-01") (Some "ann@x.org") ∅)
           (mkBlame (Some "Ann") 1 (Some "foo") (Some "2024-01-01") (Some "ann@x.org")
              {[ Some "Ann" := ([(0, "foo", Some "2024-01-01")], 0,
                                Some "2024-01-01", Some "ann@x.org") ]}));
    try reflexivity; by vm_compute.
Defined.

Lemma failing_file_contributes_nothing_witness :
  let self := Sample.analyzer in
  (∀ a, file_fails Sample.format_date Sample.git_rev_list Sample.git_blame
          Sample.git_log a = true →
        (process_file Sample.format_date Sample.git_rev_list Sample.git_blame
           Sample.git_log a).2 = (a.2, ∅))
  ∧ outcome (analyze_repository Sample.fnmatch Sample.parseaddr Sample.format_date 4
               Sample.git_ls_files Sample.git_rev_list Sample.git_blame Sample.git_log
               Sample.pool_order self None) =
      inr (foldl (merge_file Sample.parseaddr) self
             (map (fun a => (process_file Sample.format_date Sample.git_rev_list
                               Sample.git_blame Sample.git_log a).2)
                  (List.filter
                     (fun a => negb (file_fails Sample.format_date Sample.git_rev_list
                                       Sample.git_blame Sample.git_log a))
                     (Sample.pool_order
                        (tasks_of Sample.fnmatch self None
                           (Sample.unlines ["f.py"; "vendor/g.py"; ""])))))).
Proof.
  intros self.
  apply (failing_file_contributes_nothing Sample.fnmatch Sample.parseaddr
           Sample.format_date 4 Sample.git_ls_files Sample.git_rev_list
           Sample.git_blame Sample.git_log Sample.pool_order self None).
  reflexivity.
Defined.

Lemma excluded_file_has_no_record_witness :
  should_exclude_file Sample.fnmatch Sample.analyzer
    "vendor/g.py" = true
  ∧ ∃ by_file,
      contributor_stats Sample.analyzed !! Some "Ann" = Some by_file
      ∧ by_file !! "vendor/g.py" = None.
Proof.
  split; [reflexivity|]. eexists. split; [by vm_compute|].
  apply (excluded_file_has_no_record Sample.fnmatch Sample.parseaddr
           Sample.format_date 4 Sample.git_ls_files Sample.git_rev_list
           Sample.git_blame Sample.git_log Sample.pool_order
           Sample.analyzer Sample.analyzed None
           "vendor/g.py" pool_order_perm) with (a := Some "Ann").
  - intros a by_file H. vm_compute in H. discriminate.
  - reflexivity.
  - by vm_compute.
  - by vm_compute.
Defined.

Lemma analyze_repository_order_independent_witness :
  let self := Sample.analyzer in
  outcome (analyze_repository Sample.fnmatch Sample.parseaddr Sample.format_date 4
             Sample.git_ls_files Sample.git_rev_list Sample.git_blame Sample.git_log
             Sample.pool_order self None) =
  outcome (analyze_repository Sample.fnmatch Sample.parseaddr Sample.format_date 4
             Sample.git_ls_files Sample.git_rev_list Sample.git_blame Sample.git_log
             (fun tasks => tasks) self None).
Proof.
  intros self.
  apply (analyze_repository_order_independent Sample.fnmatch Sample.parseaddr
           Sample.format_date 4 Sample.git_ls_files Sample.git_rev_list
           Sample.git_blame Sample.git_log Sample.pool_order (fun tasks => tasks)).
  - apply pool_order_perm.
  - reflexivity.
Defined.

Lemma process_file_numbers_distinct_counts_nonneg_witness :
  let r := (process_file Sample.format_date Sample.git_rev_list Sample.git_blame
              Sample.git_log ("repo", ["HEAD"], "f.py")).2.2 in
  r !! Some "Ann" = Some ([(0, "foo", Some "2024-01-01")], 1, Some "2024-01-01",
                          Some "ann@x.org")
  ∧ r !! Some "Bob" = Some ([], 2, None, Some "bob@y.org")
  ∧ NoDup (line_no <$> [(0, "foo", Some "2024-01-01")])
  ∧ 0 ≤ 2.
Proof.
  intros r.
  assert (r !! Some "Ann" = Some ([(0, "foo", Some "2024-01-01")], 1,
                                  Some "2024-01-01", Some "ann@x.org")) as HA
    by (by vm_compute).
  assert (r !! Some "Bob" = Some ([], 2, None, Some "bob@y.org")) as HB
    by (by vm_compute).
  destruct (process_file_numbers_distinct_counts_nonneg Sample.format_date
              Sample.git_rev_list Sample.git_blame Sample.git_log
              ("repo", ["HEAD"], "f.py")) as (H1 & _ & H3).
  split_and!; [done|done|apply (H1 _ _ HA)|apply (H3 _ _ HB)].
Defined.

Lemma reported_totals_are_sums_witness :
  (Some "Ann", (1, 1)) ∈ reported_totals Sample.json_doc
  ∧ ∃ file_stats,
      contributor_stats Sample.analyzed !! Some "Ann" = Some file_stats
      ∧ 1 = spec_current_total file_stats
      ∧ 1 = spec_historical_total file_stats.
Proof.
  assert ((Some "Ann", (1, 1)) ∈ reported_totals Sample.json_doc) as Hin.
  { apply list_elem_of_In. vm_compute. right. left. reflexivity. }
  split; [done|].
  refine (proj1 (reported_totals_are_sums "now" Sample.analyzed "out.json" "json"
                   false "out.json" Sample.json_doc _) _ _ _ Hin).
  apply list_elem_of_In. vm_compute. left. reflexivity.
Defined.


(** * Further properties of the code *)

(** ** Splitting *)

Lemma split_nonempty (sep : ascii) (s : string) : Py.split sep s ≠ [].
Proof.
  destruct s as [|c s]; [done|]. cbn. destruct (Ascii.eqb c sep); [done|].
  by destruct (Py.split sep s).
Qed.

(** The first piece of a split is the text up to the first separator. *)
Lemma split_head_spec (sep : ascii) (s w : string) :
  head (Py.split sep s) = Some w ↔
  ∃ rest, s = w +:+ rest ∧ Py.mem sep w = false
          ∧ (rest = "" ∨ ∃ r, rest = String sep r).
Proof.
  revert w. induction s as [|c s IH]; intros w; cbn.
  - split.
    + intros [= <-]. exists "". split_and!; [done|done|by left].
    + intros (rest & H & _). symmetry in H. apply app_eq_nil_s in H as [-> _]. done.
  - destruct (Ascii.eqb_spec c sep) as [->|Hc].
    + cbn. split.
      * intros [= <-]. exists (String sep s). split_and!; [done|done|right; by eexists].
      * intros (rest & H & Hm & _). destruct w as [|d w]; [done|].
        cbn in H. injection H as <- _. cbn in Hm.
        by rewrite Ascii.eqb_refl in Hm.
    + pose proof (split_nonempty sep s) as Hne.
      destruct (Py.split sep s) as [|w0 ws] eqn:Hs; [done|]. cbn. split.
      * intros [= <-]. destruct (proj1 (IH w0) eq_refl) as (rest & -> & Hm & Hr).
        exists rest. split_and!; [done| |done]. cbn. rewrite Hm, orb_false_r.
        apply Ascii.eqb_neq. congruence.
      * intros (rest & H & Hm & Hr). destruct w as [|d w].
        -- cbn in H. subst rest. destruct Hr as [|[r [= -> _]]]; done.
        -- cbn in H. injection H as <- ->. cbn in Hm.
           apply orb_false_iff in Hm as [_ Hm].
           f_equal. f_equal.
           assert (head (w0 :: ws) = Some w) as Hw; [|by injection Hw].
           apply IH. by exists rest.
Qed.

(** The second piece is the text between the first two separators. *)
Lemma split_second_spec (sep : ascii) (s d : string) :
  second (Py.split sep s) = Some d ↔
  ∃ l rest, s = l +:+ String sep (d +:+ rest)
            ∧ Py.mem sep l = false ∧ Py.mem sep d = false
            ∧ (rest = "" ∨ ∃ r, rest = String sep r).
Proof.
  revert d. induction s as [|c s IH]; intros d; cbn.
  - split; [done|]. intros (l & rest & H & _). by destruct l.
  - destruct (Ascii.eqb_spec c sep) as [->|Hc].
    + pose proof (split_nonempty sep s) as Hne.
      destruct (Py.split sep s) as [|w0 ws] eqn:Hs; [done|]. cbn.
      assert (Some w0 = Some d ↔ head (Py.split sep s) = Some d) as -> by by rewrite Hs.
      rewrite split_head_spec. split.
      * intros (rest & -> & Hm & Hr). by exists "", rest.
      * intros (l & rest & H & Hl & Hm & Hr). destruct l as [|c l].
        -- cbn in H. injection H as ->. by exists rest.
        -- cbn in H. injection H as <- _. cbn in Hl. by rewrite Ascii.eqb_refl in Hl.
    + pose proof (split_nonempty sep s) as Hne.
      destruct (Py.split sep s) as [|w0 ws] eqn:Hs; [done|].
      change (second (String c w0 :: ws)) with (second (w0 :: ws)).
      rewrite IH. split.
      * intros (l & rest & -> & Hl & Hm & Hr). exists (String c l), rest.
        split_and!; try done. cbn. rewrite Hl, orb_false_r.
        apply Ascii.eqb_neq. congruence.
      * intros (l & rest & H & Hl & Hm & Hr). destruct l as [|c' l].
        -- cbn in H. injection H as -> _. done.
        -- cbn in H. injection H as <- ->. cbn in Hl.
           apply orb_false_iff in Hl as [_ Hl]. by exists l, rest.
Qed.

Lemma contains_char (c : ascii) (s : string) :
  Py.contains (String c "") s = Py.mem c s.
Proof.
  induction s as [|d s IH]; [done|]. cbn [Py.contains Py.mem]. rewrite IH.
  f_equal. destruct (Ascii.eqb_spec c d) as [->|Hne].
  - apply prefix_app. by exists s.
  - destruct (String.prefix _ _) eqn:Hp; [|done].
    apply prefix_app in Hp as [v Hv]. cbn in Hv. injection Hv as Hd _. congruence.
Qed.

Lemma split_second_mem (sep : ascii) (s : string) :
  is_Some (second (Py.split sep s)) ↔ Py.mem sep s = true.
Proof.
  induction s as [|c s IH]; cbn.
  - split; [by intros [? ?]|done].
  - pose proof (split_nonempty sep s) as Hne.
    destruct (Ascii.eqb_spec c sep) as [->|Hc].
    + rewrite Ascii.eqb_refl. destruct (Py.split sep s); [done|].
      split; [done|]. intros _. by eexists.
    + destruct (Py.split sep s) as [|w0 ws] eqn:Hs; [done|].
      change (second (String c w0 :: ws)) with (second (w0 :: ws)).
      rewrite IH.
      assert (Ascii.eqb sep c = false) as -> by (apply Ascii.eqb_neq; congruence).
      done.
Qed.

(** ** extract_email_domain *)

Section EmailDomain.

Variable parseaddr : string → string.

(** X1.  [extract_email_domain] finds no domain exactly when the parsed address
    has no '@'. *)
Theorem extract_email_domain_none (email : string) :
  extract_email_domain parseaddr email = None
  ↔ Py.mem "@" (parseaddr email) = false.
Proof.
  unfold extract_email_domain. rewrite contains_char.
  destruct (Py.mem "@" (parseaddr email)) eqn:Hm; [|done].
  apply split_second_mem in Hm as [d Hd]. by rewrite Hd.
Qed.

(** X2.  The domain it finds is the text between the first '@' of the parsed
    address and the next one, or the end. *)
Theorem extract_email_domain_some (email d : string) :
  extract_email_domain parseaddr email = Some d ↔
  ∃ l rest, parseaddr email = l +:+ "@" +:+ d +:+ rest
            ∧ Py.mem "@" l = false ∧ Py.mem "@" d = false
            ∧ (rest = "" ∨ ∃ r, rest = "@" +:+ r).
Proof.
  unfold extract_email_domain. rewrite contains_char.
  destruct (Py.mem "@" (parseaddr email)) eqn:Hm.
  - apply split_second_spec.
  - split; [done|]. intros (l & rest & H & Hl & Hd & Hr).
    assert (is_Some (second (Py.split "@" (parseaddr email)))) as Hs.
    { exists d. apply split_second_spec. by exists l, rest. }
    apply split_second_mem in Hs. congruence.
Qed.

End EmailDomain.

(** ** Stripping *)

Lemma rstrip_by_idem (p : ascii → bool) (s : string) :
  Py.rstrip_by p (Py.rstrip_by p s) = Py.rstrip_by p s.
Proof.
  induction s as [|c s IH]; [done|]. cbn.
  destruct (Py.rstrip_by p s) as [|d r] eqn:Hr.
  - destruct (p c) eqn:Hc; [done|]. cbn. by rewrite Hc.
  - cbn [Py.rstrip_by]. cbn [Py.rstrip_by] in IH. by rewrite IH.
Qed.

Lemma lstrip_by_head (p : ascii → bool) (s : string) :
  match Py.lstrip_by p s with
  | EmptyString => True
  | String c _ => p c = false
  end.
Proof.
  induction s as [|c s IH]; [done|]. cbn. destruct (p c) eqn:Hc; [done|]. by cbn.
Qed.

Lemma rstrip_by_head (p : ascii → bool) (c : ascii) (s : string) :
  p c = false → ∃ r, Py.rstrip_by p (String c s) = String c r.
Proof. intros Hc. cbn. rewrite Hc. destruct (Py.rstrip_by p s); eauto. Qed.

(** Stripping twice is stripping once. *)
Lemma strip_idem (chars s : string) :
  Py.strip chars (Py.strip chars s) = Py.strip chars s.
Proof.
  unfold Py.strip. set (p := fun c => Py.mem c chars).
  pose proof (lstrip_by_head p s) as Hh.
  destruct (Py.lstrip_by p s) as [|c t]; [done|].
  destruct (rstrip_by_head p c t Hh) as [r Hr]. rewrite Hr.
  cbn [Py.lstrip_by]. rewrite Hh, <-Hr. apply rstrip_by_idem.
Qed.

Lemma replace_app (a b : ascii) (s t : string) :
  Py.replace a b (s +:+ t) = Py.replace a b s +:+ Py.replace a b t.
Proof. induction s as [|c s IH]; [done|]. cbn. by rewrite IH. Qed.

(** ** More on the exclusion filter *)

(** X3.  [__init__] stores the exclude paths without a slash at either end
    (stripping them again changes nothing), and only for the arguments
    that are not blank. *)
Theorem init_exclude_paths_stripped (repo : string)
    (commits paths patterns : option (list string)) (e : string) :
  e ∈ exclude_paths (init repo commits paths patterns) →
  Py.strip "/" e = e
  ∧ ∃ p, p ∈ default [] paths ∧ e = Py.strip "/" p ∧ Py.strip_ws p ≠ "".
Proof.
  cbn [init exclude_paths]. intros He.
  apply list_elem_of_In, in_map_iff in He as [p [<- Hp]].
  apply filter_In in Hp as [Hp Hne]. split; [apply strip_idem|].
  exists p. split_and!; [by apply list_elem_of_In|done|].
  by destruct (Py.strip_ws p).
Qed.

(** X4.  A file is excluded when its path is an exclude path, or lies under
    one: for a path as the listing prints it, without a slash at either
    end. *)
Theorem file_under_exclude_path_is_excluded (fnmatch : string → string → bool)
    (self : GitContributorAnalyzer) (e f : string) :
  e ∈ exclude_paths self →
  Py.strip "/" f = f →
  f = e ∨ (∃ rest, f = e +:+ "/" +:+ rest) →
  should_exclude_file fnmatch self f = true.
Proof.
  intros He Hf Hunder. unfold should_exclude_file. rewrite Hf.
  pose proof (exclude_paths_loop_spec (exclude_paths self) f) as Hloop.
  destruct (exclude_paths_loop (exclude_paths self) f) as [hit np].
  cbn [fst] in Hloop. cbn zeta in Hloop.
  assert (hit = true) as ->; [|done].
  apply Hloop. exists e. split; [done|]. apply path_hit_spec.
  destruct Hunder as [->|[rest ->]].
  - exists "", "". rewrite app_nil_r_s. split_and!; [done|by left..].
  - exists "", ("/" +:+ Py.replace "\" "/" rest).
    split_and!; [|by left|right; by eexists].
    by rewrite !replace_app.
Qed.

(** ** Sums over a per-file result *)

Lemma sum_entries_insert (g : file_entry → Z) (r : file_results)
    (k : option string) (e : file_entry) :
  sum_entries g (<[k := e]> r) = sum_entries g r - from_option g 0 (r !! k) + g e.
Proof.
  unfold sum_entries.
  assert (∀ (m : file_results) (j1 j2 : option string) (z1 z2 : file_entry) (y : Z),
            j1 ≠ j2 → m !! j1 = Some z1 → m !! j2 = Some z2 →
            g z1 + (g z2 + y) = g z2 + (g z1 + y)) as Hcomm by (intros; lia).
  destruct (r !! k) as [e0|] eqn:Hk; cbn.
  - rewrite <-insert_delete_eq.
    rewrite (map_fold_delete_L _ _ k e0 r) by eauto.
    rewrite map_fold_insert_L; [lia|eauto|apply lookup_delete_eq].
  - rewrite map_fold_insert_L; [lia|eauto|done].
Qed.

Lemma sum_entries_empty (g : file_entry → Z) : sum_entries g ∅ = 0.
Proof. unfold sum_entries. apply map_fold_empty. Qed.

Lemma sum_entries_zero (g : file_entry → Z) (r : file_results) :
  (∀ a e, r !! a = Some e → g e = 0) → sum_entries g r = 0.
Proof.
  unfold sum_entries. induction r as [|k e r Hk Hfold IH] using map_first_key_ind.
  - intros _. apply map_fold_empty.
  - intros H. rewrite map_fold_insert_first_key by done.
    rewrite IH.
    + rewrite (H k e) by apply lookup_insert_eq. done.
    + intros a e' Ha. apply (H a). rewrite lookup_insert_ne; [done|]. congruence.
Qed.

(** ** What the log walk adds *)

(** One round of the log loop leaves the result as it is, on a line that
    adds nothing, or gives the current author's entry the additions of the
    line. *)
Lemma log_step_adds (st : log_state) (line : string) :
  (l_result (log_step st line) = l_result st ∧ line_additions line = 0)
  ∨ ∃ em,
      let e := result_get (l_result st) (l_author st) in
      l_result (log_step st line) =
        <[l_author st := (entry_lines e, entry_count e + line_additions line,
                          entry_date e, em)]> (l_result st).
Proof.
  unfold log_step, line_additions.
  destruct (Py.strip_ws line) as [|c0 s0]; [by left|].
  destruct line as [|c s]; [by left|].
  destruct (Py.isdigit c) eqn:Hd; cbn [negb]; [|by left].
  destruct (Py.split "009" (String c s)) as [|additions [|deletions [|name [|]]]];
    try by left.
  destruct (String.eqb additions "-"); cbn [negb]; [by left|].
  unfold entry_lines, entry_count, entry_date.
  destruct (result_get _ _) as [[[lines count] date] email]. cbn [fst snd].
  destruct (Py.int additions) as [n|]; right; cbn [default].
  - by exists (Py.or_ (l_email st) email).
  - exists email. by rewrite Z.add_0_r.
Qed.

Lemma result_get_count (r : file_results) (a : option string) :
  entry_count (result_get r a) = from_option entry_count 0 (r !! a).
Proof. unfold result_get. by destruct (r !! a). Qed.

Lemma log_step_total (st : log_state) (line : string) :
  sum_entries entry_count (l_result (log_step st line))
  = sum_entries entry_count (l_result st) + line_additions line.
Proof.
  destruct (log_step_adds st line) as [[-> ->]|[em ->]]; [lia|].
  rewrite sum_entries_insert. unfold entry_count at 3. cbn [fst snd].
  fold (entry_count (result_get (l_result st) (l_author st))).
  rewrite result_get_count. lia.
Qed.

Lemma log_walk_total (lines : list string) (st : log_state) :
  sum_entries entry_count (l_result (log_walk st lines))
  = sum_entries entry_count (l_result st)
    + foldr (fun line total => line_additions line + total) 0 lines.
Proof.
  revert st. induction lines as [|line lines IH]; intros st; cbn; [lia|].
  fold (log_walk (log_step st line) lines). rewrite IH, log_step_total. lia.
Qed.

(** The log walk keeps the date of every entry; an entry it creates has
    none. *)
Lemma log_walk_date (lines : list string) (st : log_state) (a : option string) :
  match l_result (log_walk st lines) !! a with
  | Some e' => entry_date e' = from_option entry_date None (l_result st !! a)
  | None => l_result st !! a = None
  end.
Proof.
  induction lines as [|line lines IH] using rev_ind.
  - cbn. by destruct (l_result st !! a).
  - unfold log_walk. rewrite foldl_snoc. fold (log_walk st lines).
    destruct (log_step_inv (log_walk st lines) line) as [->|(n & em & _ & ->)]; [done|].
    destruct (decide (l_author (log_walk st lines) = a)) as [Ha|Hne].
    + rewrite Ha, lookup_insert_eq. cbn. unfold result_get.
      destruct (l_result (log_walk st lines) !! a) as [e1|]; [done|].
      by rewrite IH.
    + by rewrite lookup_insert_ne.
Qed.

Section Invariant2.

Variable format_date : Z → option string.

Lemma blame_inv2_init : blame_inv2 blame_init.
Proof.
  unfold blame_inv2. split_and!.
  - intros k Hk. cbn in Hk. lia.
  - cbn. unfold recorded_lines. by rewrite sum_entries_empty.
  - intros a e x. cbn. by rewrite lookup_empty.
  - intros a e. cbn. by rewrite lookup_empty.
  - intros a e. cbn. by rewrite lookup_empty.
Qed.

Lemma blame_inv2_record (st : blame_state) (content : string) :
  Py.truthy (b_author st) && Py.nonempty content = true →
  blame_inv2 st → blame_inv2 (record_line st content).
Proof.
  intros [Hau Hco]%andb_true_iff (Hcover & Hnum & Htext & Hauth & Hdate).
  unfold blame_inv2, record_line. cbn [b_result b_line_num].
  set (au := b_author st) in *. set (r := b_result st) in *.
  split_and!.
  - intros k Hk. destruct (decide (k = b_line_num st)) as [->|Hne].
    + exists au. eexists. exists (b_line_num st, content, b_date st).
      split_and!; [apply lookup_insert_eq| |done].
      cbn. apply elem_of_app. right. by left.
    + destruct (Hcover k ltac:(lia)) as (a & e & x & Ha & Hx & Hkx).
      destruct (decide (au = a)) as [<-|Hna].
      * exists au. eexists. exists x.
        split_and!; [apply lookup_insert_eq| |done].
        cbn. apply elem_of_app. left. unfold result_get. by rewrite Ha.
      * exists a, e, x. by rewrite lookup_insert_ne.
  - unfold recorded_lines in *. rewrite sum_entries_insert. cbn [fst snd entry_lines].
    unfold len. rewrite length_app. cbn [length].
    unfold result_get. destruct (r !! au) as [e0|]; cbn; unfold len in Hnum; lia.
  - intros a e x. destruct (decide (au = a)) as [<-|Hna].
    + rewrite lookup_insert_eq. intros [= <-]. cbn.
      intros [Hx|Hx%list_elem_of_singleton]%elem_of_app.
      * unfold result_get in Hx. destruct (r !! au) as [e0|] eqn:He0; cbn in Hx.
        -- by eapply Htext.
        -- by apply elem_of_nil in Hx.
      * subst x. cbn. by destruct content.
    + rewrite lookup_insert_ne by done. apply Htext.
  - intros a e. destruct (decide (au = a)) as [<-|Hna].
    + done.
    + rewrite lookup_insert_ne by done. apply Hauth.
  - intros a e. destruct (decide (au = a)) as [<-|Hna].
    + rewrite lookup_insert_eq. intros [= <-]. eexists _, _. split; done.
    + rewrite lookup_insert_ne by done. apply Hdate.
Qed.

Lemma blame_inv2_walk (lines : list string) (st st' : blame_state) :
  blame_walk format_date st lines = inr st' → blame_inv2 st → blame_inv2 st'.
Proof.
  revert st. induction lines as [|line lines IH]; intros st H Hinv; cbn in H.
  - by injection H as <-.
  - destruct (blame_step _ _ _) as [|st1] eqn:Hs; [done|].
    eapply IH; [done|].
    apply blame_step_inv in Hs as [(_ & Hg & ->)|(Hr & Hn & _)].
    + by apply blame_inv2_record.
    + unfold blame_inv2. by rewrite Hr, Hn.
Qed.

Lemma log_walk_recorded (lines : list string) (st : log_state) :
  recorded_lines (l_result (log_walk st lines)) = recorded_lines (l_result st).
Proof.
  induction lines as [|line lines IH] using rev_ind; [done|].
  unfold log_walk. rewrite foldl_snoc. fold (log_walk st lines).
  destruct (log_step_inv (log_walk st lines) line) as [->|(n & em & _ & ->)]; [done|].
  unfold recorded_lines in *. rewrite sum_entries_insert, IH.
  unfold result_get, entry_lines.
  destruct (l_result (log_walk st lines) !! l_author (log_walk st lines));
    unfold len; cbn; lia.
Qed.

End Invariant2.

(** ** More on the result of process_file *)

Section ProcessFileMore.

Variable format_date : Z → option string.
Variables git_rev_list git_blame git_log : string * list string * string → exn + string.

#[local] Abbreviation process := (process_file format_date git_rev_list git_blame git_log).

(** The result of [process_file] is empty, or the log walk run on a blame
    result that satisfies both invariants. *)
Lemma process_file_shape (args : string * list string * string) :
  (process args).2.2 = ∅
  ∨ ∃ log_lines st,
      blame_inv st ∧ blame_inv2 st
      ∧ (process args).2.2 = l_result (log_walk (mkLog None None (b_result st)) log_lines).
Proof.
  destruct (process_file_cases format_date git_rev_list git_blame git_log args)
    as [->|(blame_lines & log_lines & st & Hwalk & ->)]; [by left|].
  right. exists log_lines, st. split_and!; [| |done].
  - eapply blame_inv_walk; [done|apply blame_inv_init].
  - eapply blame_inv2_walk; [done|apply blame_inv2_init].
Qed.

(** X5.  The line numbers of a per-file result are the numbers from 0 up to,
    and without, the number of its current lines. *)
Theorem process_file_numbers_consecutive (args : string * list string * string)
    (k : Z) :
  0 ≤ k < recorded_lines (process args).2.2
  ↔ ∃ a e x, (process args).2.2 !! a = Some e ∧ x ∈ entry_lines e ∧ line_no x = k.
Proof.
  destruct (process_file_shape args)
    as [->|(log_lines & st & (_ & Hbound & _) & (Hcover & Hnum & _) & ->)].
  { unfold recorded_lines. rewrite sum_entries_empty. split; [lia|].
    intros (a & e & x & Ha & _). by rewrite lookup_empty in Ha. }
  rewrite log_walk_recorded. cbn [l_result]. rewrite <-Hnum.
  set (r' := l_result _).
  assert (∀ a e', r' !! a = Some e' →
            entry_lines e' = from_option entry_lines [] (b_result st !! a)) as Hlines.
  { intros a e' He'.
    pose proof (log_walk_lines log_lines (mkLog None None (b_result st)) a) as H.
    fold r' in H. by rewrite He' in H. }
  split.
  - intros Hk. destruct (Hcover k Hk) as (a & e & x & Ha & Hx & Hkx).
    pose proof (log_walk_lines log_lines (mkLog None None (b_result st)) a) as H.
    fold r' in H. cbn [l_result] in H. rewrite Ha in H.
    destruct (r' !! a) as [e'|] eqn:He'; [|done].
    exists a, e', x. cbn in H. by rewrite H.
  - intros (a & e' & x & Ha & Hx & <-). rewrite (Hlines _ _ Ha) in Hx.
    destruct (b_result st !! a) as [e|] eqn:He; cbn in Hx.
    + by eapply Hbound.
    + by apply elem_of_nil in Hx.
Qed.

(** X6.  A current line of a per-file result has a text that is not empty, and
    an author with a name that is not empty: the author [None] of the log
    walk never owns a current line. *)
Theorem process_file_lines_have_text_and_author
    (args : string * list string * string) (a : option string) (e : file_entry)
    (x : Z * string * option string) :
  (process args).2.2 !! a = Some e → x ∈ entry_lines e →
  line_text x ≠ "" ∧ ∃ name, a = Some name ∧ name ≠ "".
Proof.
  destruct (process_file_shape args)
    as [->|(log_lines & st & _ & (_ & _ & Htext & Hauth & _) & ->)].
  { by rewrite lookup_empty. }
  intros Ha Hx.
  pose proof (log_walk_lines log_lines (mkLog None None (b_result st)) a) as H.
  rewrite Ha in H. cbn [l_result] in H. rewrite H in Hx.
  destruct (b_result st !! a) as [e0|] eqn:He0; cbn in Hx; [|by apply elem_of_nil in Hx].
  split; [by eapply Htext|].
  apply Hauth in He0. destruct a as [[|c name]|]; try done. by eexists.
Qed.

(** X7.  The date of an author's entry is the date of the last of the author's
    current lines, in the order of the file; an entry without current
    lines has no date. *)
Theorem process_file_entry_date (args : string * list string * string)
    (a : option string) (e : file_entry) :
  (process args).2.2 !! a = Some e →
  entry_date e = from_option line_date None (last (entry_lines e)).
Proof.
  destruct (process_file_shape args)
    as [->|(log_lines & st & _ & (_ & _ & _ & _ & Hdate) & ->)].
  { by rewrite lookup_empty. }
  intros Ha.
  pose proof (log_walk_lines log_lines (mkLog None None (b_result st)) a) as Hl.
  pose proof (log_walk_date log_lines (mkLog None None (b_result st)) a) as Hd.
  rewrite Ha in Hl, Hd. cbn [l_result] in Hl, Hd. rewrite Hl, Hd.
  destruct (b_result st !! a) as [e0|] eqn:He0; cbn; [|done].
  destruct (Hdate _ _ He0) as (l & x & -> & ->). by rewrite last_snoc.
Qed.

(** X8.  When no command fails and the blame output is parsed, the historical
    counts of the result add up to the additions of the lines of the log
    output: an added line is counted once, whoever it is credited to. *)
Theorem process_file_total_additions (args : string * list string * string)
    (rev blame_output log_output : string) (st : blame_state) :
  git_rev_list args = inr rev →
  git_blame args = inr blame_output →
  blame_walk format_date blame_init (Py.split "010" blame_output) = inr st →
  git_log args = inr log_output →
  sum_entries entry_count (process args).2.2
  = foldr (fun line total => line_additions line + total) 0
          (Py.split "010" log_output).
Proof.
  intros Hrev Hblame Hwalk Hlog.
  rewrite (process_file_ok _ _ _ _ _ _ _ _ _ Hrev Hblame Hwalk Hlog).
  rewrite log_walk_total. cbn [l_result].
  rewrite sum_entries_zero; [lia|].
  apply blame_inv_walk in Hwalk as (_ & _ & Hcount & _); [|apply blame_inv_init].
  done.
Qed.

End ProcessFileMore.

(** ** More on merging and on analyze_repository *)

Section AnalyzeMore.

Variable fnmatch : string → string → bool.
Variable parseaddr : string → string.
Variable format_date : Z → option string.
Variable cpu_count : nat.
Variable git_ls_files : string → exn + string.
Variables git_rev_list git_blame git_log : string * list string * string → exn + string.

#[local] Abbreviation process := (process_file format_date git_rev_list git_blame git_log).
#[local] Abbreviation merge := (merge_file parseaddr).
#[local] Abbreviation analyze :=
  (analyze_repository fnmatch parseaddr format_date cpu_count git_ls_files
                      git_rev_list git_blame git_log).

Lemma merge_file_emails_consistent (self : GitContributorAnalyzer)
    (r : string * file_results) :
  emails_consistent parseaddr self → emails_consistent parseaddr (merge self r).
Proof.
  destruct r as [f res]. intros Hself a.
  pose proof (merge_file_view parseaddr self f res a) as Hv. unfold view in Hv.
  destruct (Hself a) as [Hem Hco].
  destruct (res !! a) as [e|]; [|injection Hv as -> -> ->; by split].
  unfold merge_view in Hv. injection Hv as Hs He Hc. rewrite Hs, He, Hc. clear Hs He Hc.
  destruct (entry_email e) as [[|c em]|];
    [split; [intros es Hes; split; [by eexists|by eapply Hem]|done]|
     |split; [intros es Hes; split; [by eexists|by eapply Hem]|done]].
  assert (∀ es, Some ({[String c em]} ∪ default ∅ (contributor_emails self !! a))
                = Some es → ∀ x, x ∈ es → x ≠ "") as Hne.
  { intros es [= <-] x [->%elem_of_singleton|Hx]%elem_of_union; [done|].
    destruct (contributor_emails self !! a) as [es0|] eqn:Hes; cbn in Hx.
    - by eapply Hem.
    - by apply not_elem_of_empty in Hx. }
  split; [intros es Hes; split; [by eexists|by eapply Hne]|].
  destruct (extract_email_domain parseaddr (String c em)) as [[|dc dom]|] eqn:Hd.
  - intros cs d Hcs Hin. destruct (Hco _ _ Hcs Hin) as (Hdne & es & x & Hes & Hx & Hxd).
    split; [done|]. eexists _, x. split_and!; [done| |done].
    rewrite Hes. cbn. apply elem_of_union. by right.
  - intros cs d [= <-] [->%elem_of_singleton|Hin]%elem_of_union.
    + split; [done|]. eexists _, _. split_and!; [done| |done].
      apply elem_of_union. left. by apply elem_of_singleton.
    + destruct (contributor_companies self !! a) as [cs0|] eqn:Hcs; cbn in Hin;
        [|by apply not_elem_of_empty in Hin].
      destruct (Hco _ _ eq_refl Hin) as (Hdne & es & x & Hes & Hx & Hxd).
      split; [done|]. eexists _, x. split_and!; [done| |done].
      rewrite Hes. cbn. apply elem_of_union. by right.
  - intros cs d Hcs Hin. destruct (Hco _ _ Hcs Hin) as (Hdne & es & x & Hes & Hx & Hxd).
    split; [done|]. eexists _, x. split_and!; [done| |done].
    rewrite Hes. cbn. apply elem_of_union. by right.
Qed.

Lemma foldl_merge_emails_consistent (results : list (string * file_results))
    (self : GitContributorAnalyzer) :
  emails_consistent parseaddr self →
  emails_consistent parseaddr (foldl merge self results).
Proof.
  revert self. induction results as [|r results IH]; intros self H; [done|].
  cbn [foldl]. apply IH. by apply merge_file_emails_consistent.
Qed.

(** X9.  [analyze_repository] keeps the emails and companies consistent with the
    statistics: every company it holds for an author is the domain of one
    of the emails it holds for that author, and an author with emails has
    statistics. *)
Theorem analyze_repository_emails_consistent pool_order
    (self self' : GitContributorAnalyzer) (file_extensions : option (gset string)) :
  emails_consistent parseaddr self →
  outcome (analyze pool_order self file_extensions) = inr self' →
  emails_consistent parseaddr self'.
Proof.
  intros Hself Hout.
  destruct (git_ls_files (repo_path self)) as [e|out] eqn:Hls.
  - unfold analyze_repository in Hout. rewrite Hls in Hout.
    destruct e; cbn in Hout; try done. by injection Hout as <-.
  - rewrite (analyze_repository_ok _ _ _ _ _ _ _ _ _ _ _ _ Hls) in Hout.
    injection Hout as <-. by apply foldl_merge_emails_consistent.
Qed.

(** X10.  With a list of extensions, a file whose name ends with none of them
    gets no contribution record. *)
Theorem file_without_extension_has_no_record pool_order
    (self self' : GitContributorAnalyzer) (exts : gset string) (f : string) :
  (∀ tasks, pool_order tasks ≡ₚ tasks) →
  absent f self →
  exts ≠ ∅ →
  (∀ ext, ext ∈ exts → Py.endswith f ext = false) →
  outcome (analyze pool_order self (Some exts)) = inr self' →
  absent f self'.
Proof.
  intros Hpool Habs Hne Hext Hout.
  destruct (git_ls_files (repo_path self)) as [e|out] eqn:Hls.
  - unfold analyze_repository in Hout. rewrite Hls in Hout.
    destruct e; cbn in Hout; try done. by injection Hout as <-.
  - rewrite (analyze_repository_ok _ _ _ _ _ _ _ _ _ _ _ _ Hls) in Hout.
    injection Hout as <-. apply foldl_merge_absent; [|done].
    apply Forall_forall. intros r Hr.
    apply list_elem_of_In, in_map_iff in Hr as [a [<- Ha]].
    rewrite process_file_path.
    apply list_elem_of_In in Ha. rewrite Hpool in Ha. apply list_elem_of_In in Ha.
    unfold tasks_of in Ha. apply in_map_iff in Ha as [f' [<- Hf']]. cbn.
    apply filter_In in Hf' as [_ Hkeep]. intros ->.
    unfold keep_file in Hkeep. apply andb_true_iff in Hkeep as [_ Hkeep].
    rewrite bool_decide_eq_false_2 in Hkeep by done. cbn in Hkeep.
    apply existsb_exists in Hkeep as (ext & Hin & Hend).
    rewrite Hext in Hend; [done|]. by apply elem_of_elements, list_elem_of_In.
Qed.


(** X12.  Merging the result of a file a second time, as happens when the listing
    names the file twice, appends the author's current lines again and sets
    the historical count again: the lines double, the count does not. *)
Theorem merge_file_twice (self : GitContributorAnalyzer) (f : string)
    (res : file_results) (a : option string) (e : file_entry) :
  res !! a = Some e →
  default ∅ (contributor_stats self !! a) !! f = None →
  ∃ by_file c,
    contributor_stats (merge (merge self (f, res)) (f, res)) !! a = Some by_file
    ∧ by_file !! f = Some c
    ∧ len (current_lines c) = 2 * len (entry_lines e)
    ∧ historical_lines c = entry_count e.
Proof.
  intros Ha Hnew.
  pose proof (merge_file_view parseaddr (merge self (f, res)) f res a) as H2.
  pose proof (merge_file_view parseaddr self f res a) as H1.
  rewrite Ha in H1, H2. unfold view in H1, H2. unfold merge_view in H1, H2.
  injection H1 as H1 _ _. injection H2 as H2 _ _.
  rewrite H2, H1. cbn [default]. eexists _, _. split; [done|].
  rewrite !lookup_insert_eq. split; [done|]. cbn. rewrite Hnew. cbn.
  split; [|done]. unfold len. rewrite lookup_insert_eq. cbn.
  rewrite !length_app, !length_map. cbn. lia.
Qed.

End AnalyzeMore.

(** ** The analysis only adds *)

Lemma grows_refl (s : GitContributorAnalyzer) : grows s s.
Proof.
  split_and!; [done|..].
  - intros a by_file f c Ha Hf. by exists by_file, c.
  - intros a es Ha. by exists es.
  - intros a cs Ha. by exists cs.
Qed.

Lemma grows_trans (s1 s2 s3 : GitContributorAnalyzer) :
  grows s1 s2 → grows s2 s3 → grows s1 s3.
Proof.
  intros (Hc1 & Hs1 & He1 & Hd1) (Hc2 & Hs2 & He2 & Hd2). split_and!.
  - by etrans.
  - intros a by_file f c Ha Hf.
    destruct (Hs1 _ _ _ _ Ha Hf) as (bf2 & c2 & Ha2 & Hf2 & Hp2).
    destruct (Hs2 _ _ _ _ Ha2 Hf2) as (bf3 & c3 & Ha3 & Hf3 & Hp3).
    exists bf3, c3. split_and!; [done..|]. by etrans.
  - intros a es Ha. destruct (He1 _ _ Ha) as (es2 & Ha2 & Hsub2).
    destruct (He2 _ _ Ha2) as (es3 & Ha3 & Hsub3). exists es3. split; [done|].
    by etrans.
  - intros a cs Ha. destruct (Hd1 _ _ Ha) as (cs2 & Ha2 & Hsub2).
    destruct (Hd2 _ _ Ha2) as (cs3 & Ha3 & Hsub3). exists cs3. split; [done|].
    by etrans.
Qed.

Section OnlyAdds.

Variable fnmatch : string → string → bool.
Variable parseaddr : string → string.
Variable format_date : Z → option string.
Variable cpu_count : nat.
Variable git_ls_files : string → exn + string.
Variables git_rev_list git_blame git_log : string * list string * string → exn + string.

#[local] Abbreviation merge := (merge_file parseaddr).
#[local] Abbreviation analyze :=
  (analyze_repository fnmatch parseaddr format_date cpu_count git_ls_files
                      git_rev_list git_blame git_log).

Lemma merge_file_grows (self : GitContributorAnalyzer) (r : string * file_results) :
  grows self (merge self r).
Proof.
  destruct r as [f res]. split; [apply merge_file_config|].
  assert (∀ a, view (merge self (f, res)) a
               = match res !! a with
                 | Some e => merge_view parseaddr f e (view self a)
                 | None => view self a
                 end) as Hview by (intros a; apply merge_file_view).
  split_and!.
  - intros a by_file f0 c Ha Hf0. specialize (Hview a). unfold view in Hview.
    rewrite Ha in Hview. destruct (res !! a) as [e|].
    + cbn in Hview. injection Hview as Hs _ _.
      destruct (decide (f0 = f)) as [->|Hne].
      * eexists _, _. split; [exact Hs|].
        rewrite lookup_insert_eq, Hf0. split; [done|]. cbn. by apply prefix_app_r.
      * eexists _, c. split; [exact Hs|].
        rewrite lookup_insert_ne by done. by split.
    + injection Hview as Hs _ _. by exists by_file, c.
  - intros a es Ha. specialize (Hview a). unfold view in Hview.
    rewrite Ha in Hview. destruct (res !! a) as [e|].
    + cbn in Hview. destruct (contributor_stats self !! a);
        destruct (entry_email e) as [[|ch em]|]; injection Hview as _ He _;
        eexists; (split; [exact He|]); cbn; set_solver.
    + injection Hview as _ He _. by exists es.
  - intros a cs Ha. specialize (Hview a). unfold view in Hview.
    rewrite Ha in Hview. destruct (res !! a) as [e|].
    + cbn in Hview. destruct (contributor_stats self !! a);
        destruct (contributor_emails self !! a);
        destruct (entry_email e) as [[|ch em]|];
        try destruct (extract_email_domain parseaddr _) as [[|ch' d]|];
        injection Hview as _ _ Hc;
        eexists; (split; [exact Hc|]); cbn; set_solver.
    + injection Hview as _ _ Hc. by exists cs.
Qed.

Lemma foldl_merge_grows (results : list (string * file_results))
    (self : GitContributorAnalyzer) :
  grows self (foldl merge self results).
Proof.
  revert self. induction results as [|r results IH]; intros self; [apply grows_refl|].
  cbn [foldl]. eapply grows_trans; [apply merge_file_grows|apply IH].
Qed.

(** X13.  [analyze_repository] only adds to the aggregate: it leaves the
    configuration as it is, keeps every record, adding current lines at
    the end of those the record has, and keeps every email and company. *)
Theorem analyze_repository_only_adds pool_order
    (self self' : GitContributorAnalyzer) (file_extensions : option (gset string)) :
  outcome (analyze pool_order self file_extensions) = inr self' →
  grows self self'.
Proof.
  intros Hout.
  destruct (git_ls_files (repo_path self)) as [e|out] eqn:Hls.
  - unfold analyze_repository in Hout. rewrite Hls in Hout.
    destruct e; cbn in Hout; try done. injection Hout as <-. apply grows_refl.
  - rewrite (analyze_repository_ok _ _ _ _ _ _ _ _ _ _ _ _ Hls) in Hout.
    injection Hout as <-. apply foldl_merge_grows.
Qed.

End OnlyAdds.

(** ** The revision arguments and the extension filter *)

(** X14.  The revision arguments of an analyzer as [__init__] builds it are HEAD
    followed by one argument for each commit given, stripped of white
    space, in the order given: no commit is dropped, a blank one neither,
    which gives the argument "^". *)
Theorem get_revision_range_init (repo : string)
    (commits paths patterns : option (list string)) :
  get_revision_range (init repo commits paths patterns)
  = "HEAD" :: map (fun commit => "^" +:+ Py.strip_ws commit) (default [] commits)
  ∧ ∀ commit, commit ∈ default [] commits → Py.strip_ws commit = "" →
              "^" ∈ get_revision_range (init repo commits paths patterns).
Proof.
  assert (get_revision_range (init repo commits paths patterns)
          = "HEAD" :: map (fun commit => "^" +:+ Py.strip_ws commit) (default [] commits))
    as ->.
  { unfold get_revision_range. cbn [init exclude_commits].
    destruct (default [] commits) as [|c cs]; [done|]. cbn [map].
    by rewrite map_map. }
  split; [done|]. intros commit Hin Hblank. right.
  apply list_elem_of_In, in_map_iff. exists commit. rewrite Hblank.
  split; [done|]. by apply list_elem_of_In.
Qed.

Lemma endswith_empty (s : string) : Py.endswith s "" = true.
Proof. unfold Py.endswith. cbn. by destruct (String.rev s). Qed.

(** X15.  An empty string among the extensions, as a comma at the end of the
    list gives, keeps every file: the extension filter is then the same as
    none. *)
Theorem empty_extension_keeps_every_file (fnmatch : string → string → bool)
    (self : GitContributorAnalyzer) (exts : gset string) (f : string) :
  "" ∈ exts →
  keep_file fnmatch self (Some exts) f = keep_file fnmatch self None f.
Proof.
  intros Hin. unfold keep_file. f_equal.
  apply orb_true_iff. right. apply existsb_exists. exists "".
  split; [|apply endswith_empty]. by apply list_elem_of_In, elem_of_elements.
Qed.

(** ** More on the reports *)

#[global] Instance by_current_desc_total : Total by_current_desc.
Proof. intros x y. unfold by_current_desc. lia. Qed.

#[global] Instance by_current_desc_trans : Transitive by_current_desc.
Proof. intros x y z. unfold by_current_desc. lia. Qed.

Lemma keys_length {V} (d : gmap (option string) V) : length (keys d) = size d.
Proof. unfold keys. by rewrite length_fmap, length_map_to_list. Qed.

Lemma keys_NoDup {V} (d : gmap (option string) V) : NoDup (keys d).
Proof. apply NoDup_fst_map_to_list. Qed.

(** Sorting the author keys raises exactly when there are at least two of
    them and [None] is one. *)
Lemma sorted_authors_raises (names : list (option string)) :
  match sorted_authors names with
  | inl e => e = TypeError ∧ (2 ≤ length names)%nat ∧ None ∈ names
  | inr _ => (length names ≤ 1)%nat ∨ None ∉ names
  end.
Proof.
  unfold sorted_authors. destruct names as [|a [|b names]]; [left; cbn; lia..|].
  destruct (mapM id _) as [l|] eqn:Hl.
  - right. apply (mapM_fmap_Some_inv _ Some) in Hl; [|by intros x y [= ->]].
    rewrite <-Hl. intros [x [? _]]%list_elem_of_fmap. done.
  - split_and!; [done|cbn; lia|].
    apply mapM_None_1, Exists_exists in Hl as [x [Hx Hnone]]. cbn in Hnone. by subst x.
Qed.

Lemma sorted_authors_names (ns : list string) :
  ∃ sorted, sorted_authors (Some <$> ns) = inr (Some <$> sorted)
            ∧ sorted ≡ₚ ns ∧ Sorted String.le sorted.
Proof.
  destruct ns as [|a [|b ns]].
  - exists []. split_and!; [done|done|constructor].
  - exists [a]. split_and!; [done|done|]. repeat constructor.
  - unfold sorted_authors.
    pose proof (mapM_fmap_Some (A := option string) id Some (a :: b :: ns)
                  (fun x => eq_refl)) as Hm.
    cbn [fmap list_fmap] in *. rewrite Hm.
    eexists. split_and!; [done|apply merge_sort_Permutation|].
    apply Sorted_merge_sort. apply _.
Qed.

Section ReportsMore.

Variable now : string.

(** X16.  The CSV report fails exactly when the aggregate has the author [None]
    beside at least one other author; it then raises [TypeError] and leaves
    a file without rows. *)
Theorem csv_report_raises_iff (self : GitContributorAnalyzer) (output_file : string) :
  (is_Some (contributor_stats self !! None) ∧ (2 ≤ size (contributor_stats self))%nat
   → _generate_csv_report self output_file
     = ([WriteFile output_file (CsvReport [])], inl TypeError))
  ∧ (contributor_stats self !! None = None ∨ (size (contributor_stats self) ≤ 1)%nat
     → outcome (_generate_csv_report self output_file) = inr tt).
Proof.
  unfold _generate_csv_report.
  pose proof (sorted_authors_raises (keys (contributor_stats self))) as H.
  destruct (sorted_authors _) as [e|authors]; rewrite keys_length, elem_of_keys in H.
  - destruct H as (-> & Hsize & Hnone). split; [done|].
    intros [Hn|Hs]; [|lia]. rewrite Hn in Hnone. by destruct Hnone.
  - split; [|done]. intros [Hnone Hsize]. destruct H as [H|H]; [lia|done].
Qed.

(** X17.  Without the author [None], the CSV report has one row per author of
    the aggregate, in the ascending order of the names. *)
Theorem csv_report_rows_sorted (self : GitContributorAnalyzer) (output_file : string) :
  contributor_stats self !! None = None →
  ∃ rows names,
    _generate_csv_report self output_file
      = ([WriteFile output_file (CsvReport rows)], inr tt)
    ∧ csv_name <$> rows = Some <$> names
    ∧ Sorted String.le names ∧ NoDup names
    ∧ ∀ name, name ∈ names ↔ is_Some (contributor_stats self !! Some name).
Proof.
  intros Hnone. unfold _generate_csv_report.
  assert (∃ names, keys (contributor_stats self) = Some <$> names) as [ns Hns].
  { assert (Forall (fun k => is_Some k) (keys (contributor_stats self))) as Hall.
    { apply Forall_forall. intros [n|] Hk; [done|].
      apply elem_of_keys in Hk. rewrite Hnone in Hk. by destruct Hk. }
    induction (keys (contributor_stats self)) as [|k ks IH]; [by exists []|].
    apply Forall_cons in Hall as [[n ->] Hall]. destruct (IH Hall) as [ns ->].
    by exists (n :: ns). }
  pose proof (keys_NoDup (contributor_stats self)) as Hnd. rewrite Hns in Hnd.
  apply NoDup_fmap_1 in Hnd.
  assert (∀ name, name ∈ ns ↔ is_Some (contributor_stats self !! Some name)) as Hin.
  { intros name. rewrite <-elem_of_keys, Hns. rewrite list_elem_of_fmap. split.
    - intros H. by exists name.
    - by intros [n [[= ->] H]]. }
  rewrite Hns. destruct (sorted_authors_names ns) as (sorted & -> & Hp & Hs).
  exists (map (csv_row_of self) (Some <$> sorted)), sorted. split_and!.
  - done.
  - clear. induction sorted as [|x sorted IH]; [done|]. cbn. f_equal; [|done].
    unfold csv_row_of. by destruct (csv_totals _).
  - done.
  - by rewrite Hp.
  - intros name. by rewrite Hp.
Qed.

(** X18.  The text report lists every author of the aggregate once, in the
    descending order of the current totals. *)
Theorem text_report_sorted (self : GitContributorAnalyzer) (output_file : string)
    (no_sample_code : bool) :
  ∃ entries,
    _generate_text_report self output_file no_sample_code
      = ([WriteFile output_file (TextReport entries)], inr tt)
    ∧ StronglySorted by_current_desc entries
    ∧ entries ≡ₚ map text_entry_of (map_to_list (contributor_stats self)).
Proof.
  eexists. split_and!; [reflexivity| |apply merge_sort_Permutation].
  apply StronglySorted_merge_sort; apply _.
Qed.

Lemma map_fold_sum_fmap {A B} (g : B → Z) (h : A → B) (m : gmap string A) :
  map_fold (fun _ x total => g x + total) 0 (h <$> m)
  = map_fold (fun _ x total => g (h x) + total) 0 m.
Proof.
  rewrite !map_fold_foldr, map_to_list_fmap.
  induction (map_to_list m) as [|[k x] l IH]; [done|]. cbn. by rewrite IH.
Qed.

(** X19.  In the JSON report the totals of a contributor are the sums of the
    per-file numbers written under that contributor, and the files are those
    of the aggregate. *)
Theorem json_report_totals_match_files (self : GitContributorAnalyzer)
    (output_file : string) (a : option string) :
  ∃ doc,
    _generate_json_report now self output_file
      = ([WriteFile output_file (JsonReport doc)], inr tt)
    ∧ dom (contributors doc) = dom (contributor_stats self)
    ∧ ∀ c, contributors doc !! a = Some c →
        total_current_lines c
          = map_fold (fun _ jf total => jf_current_lines jf + total) 0 (files c)
        ∧ total_historical_lines c
          = map_fold (fun _ jf total => jf_historical_lines jf + total) 0 (files c)
        ∧ dom (files c) = dom (default ∅ (contributor_stats self !! a)).
Proof.
  eexists. split_and!; [reflexivity|..].
  - cbn. apply set_eq. intros x. rewrite !elem_of_dom, map_lookup_imap.
    destruct (contributor_stats self !! x); cbn; split; intros [? ?]; done.
  - cbn [contributors]. intros c Hc. rewrite map_lookup_imap in Hc.
    destruct (contributor_stats self !! a) as [fs|]; [|done].
    change (Some (json_contributor_of self a fs) = Some c) in Hc. injection Hc as <-.
    rewrite (f_equal fst (json_contributor_totals self a fs) : total_current_lines _ = _).
    rewrite (f_equal snd (json_contributor_totals self a fs) : total_historical_lines _ = _).
    assert (files (json_contributor_of self a fs)
            = (fun stats => mkJsonFile (len (current_lines stats)) (historical_lines stats)
                                       (fc_last_modified stats)) <$> fs) as ->.
    { unfold json_contributor_of. by destruct (sum_totals fs). }
    rewrite !map_fold_sum_fmap. cbn [default jf_current_lines jf_historical_lines].
    split_and!; [done|done|]. by rewrite dom_fmap_L.
Qed.

End ReportsMore.

(** ** The per-file sections of the text report *)

Lemma insert_by_perm {A} (key : A → Z) (x : A) (l : list A) :
  insert_by key x l ≡ₚ x :: l.
Proof.
  induction l as [|y l IH]; [done|]. cbn. destruct (key x <=? key y); [done|].
  rewrite IH. apply perm_swap.
Qed.

Lemma sorted_by_perm {A} (key : A → Z) (l : list A) : sorted_by key l ≡ₚ l.
Proof.
  induction l as [|x l IH]; [done|]. cbn. by rewrite insert_by_perm, IH.
Qed.

Lemma insert_by_sorted {A} (key : A → Z) (x : A) (l : list A) :
  StronglySorted (key_le key) l → StronglySorted (key_le key) (insert_by key x l).
Proof.
  induction 1 as [|y l Hs IH Hall]; cbn; [repeat constructor|].
  destruct (Z.leb_spec (key x) (key y)) as [Hle|Hgt].
  - constructor; [by constructor|]. constructor; [done|].
    eapply Forall_impl; [done|]. unfold key_le. intros; lia.
  - constructor; [done|]. rewrite insert_by_perm. constructor; [|done].
    unfold key_le. lia.
Qed.

Lemma sorted_by_sorted {A} (key : A → Z) (l : list A) :
  StronglySorted (key_le key) (sorted_by key l).
Proof.
  induction l as [|x l IH]; [constructor|]. cbn. by apply insert_by_sorted.
Qed.

Lemma str_take_length (n : nat) (s : string) :
  (String.length (str_take n s) ≤ n)%nat.
Proof.
  revert s. induction n as [|n IH]; intros [|c s]; cbn; try lia.
  specialize (IH s). lia.
Qed.

Lemma str_take_all (n : nat) (s : string) :
  (String.length s ≤ n)%nat → str_take n s = s.
Proof.
  revert s. induction n as [|n IH]; intros [|c s]; cbn; try done; try lia.
  intros H. rewrite IH; [done|lia].
Qed.

(** X20.  A file of the text report shows at most three sample lines, each with
    at most 100 characters of the line and marked as cut exactly when the
    line is longer; they are the current lines with the lowest numbers: a
    current line that is not shown has a number at least as high as every
    line that is. *)
Theorem samples_are_first_lines (stats : FileContribution) :
  (length (samples stats) ≤ 3)%nat
  ∧ (∀ s, s ∈ samples stats →
       ∃ line, line ∈ current_lines stats ∧ s = sample_of line
               ∧ (String.length (sl_text s) ≤ 100)%nat
               ∧ (sl_cut s = false → sl_text s = content line))
  ∧ ∃ shown rest,
      current_lines stats ≡ₚ shown ++ rest
      ∧ samples stats = map sample_of shown
      ∧ (rest ≠ [] → length shown = 3%nat)
      ∧ ∀ l1 l2, l1 ∈ shown → l2 ∈ rest → line_number l1 ≤ line_number l2.
Proof.
  unfold samples. set (sorted := sorted_by line_number (current_lines stats)).
  assert (sorted ≡ₚ current_lines stats) as Hp by apply sorted_by_perm.
  split_and!.
  - rewrite length_map, length_take. lia.
  - intros s Hs. apply list_elem_of_In, in_map_iff in Hs as [line [<- Hin]].
    exists line. split_and!.
    + rewrite <-Hp. apply (subseteq_take 3). by apply list_elem_of_In.
    + done.
    + apply str_take_length.
    + unfold sample_of. cbn [sl_cut sl_text]. intros Hcut.
      apply str_take_all. by apply Nat.ltb_ge in Hcut.
  - exists (take 3 sorted), (drop 3 sorted). split_and!.
    + by rewrite take_drop.
    + done.
    + intros Hrest. rewrite length_take.
      destruct (decide (length sorted ≤ 3)%nat) as [Hle|]; [|lia].
      rewrite drop_ge in Hrest by done. done.
    + intros l1 l2 H1 H2.
      pose proof (sorted_by_sorted line_number (current_lines stats)) as Hs.
      fold sorted in Hs. rewrite <-(take_drop 3 sorted) in Hs.
      by apply (StronglySorted_app_1_elem_of _ _ _ l1 l2 Hs).
Qed.

Lemma foldr_sum_perm {A} (g : A → Z) (l1 l2 : list A) :
  l1 ≡ₚ l2 →
  foldr (fun x total => g x + total) 0 l1 = foldr (fun x total => g x + total) 0 l2.
Proof. induction 1; cbn; lia. Qed.

Lemma py_sum_foldr {A} (g : A → Z) (l : list A) :
  py_sum (map g l) = foldr (fun x total => g x + total) 0 l.
Proof.
  unfold py_sum. rewrite foldl_add, Z.add_0_l.
  induction l as [|x l IH]; [done|]. cbn. by rewrite IH.
Qed.

Lemma omap_sorted {A B} (F : A → option B) (R : relation A) (R' : relation B)
    (l : list A) :
  (∀ x y x' y', F x = Some x' → F y = Some y' → R x y → R' x' y') →
  StronglySorted R l → StronglySorted R' (omap F l).
Proof.
  intros HF. induction 1 as [|x l Hs IH Hall]; cbn; [constructor|].
  destruct (F x) as [x'|] eqn:Hx; [|done]. constructor; [done|].
  apply Forall_forall. intros y' Hy'. apply list_elem_of_omap in Hy' as (y & Hy & HFy).
  eapply HF; [done..|]. eapply Forall_forall in Hall; done.
Qed.

Lemma sorted_by_desc_perm {A} (key : A → Z) (l : list A) : sorted_by_desc key l ≡ₚ l.
Proof. apply sorted_by_perm. Qed.

Lemma sorted_by_desc_sorted {A} (key : A → Z) (l : list A) :
  StronglySorted (fun x y => key y ≤ key x) (sorted_by_desc key l).
Proof.
  pose proof (sorted_by_sorted (fun x => - key x) l) as H.
  apply (StronglySorted_fmap id _ (fun x y => key y ≤ key x)) in H.
  - by rewrite list_fmap_id in H.
  - unfold key_le. cbn. intros; lia.
Qed.

Lemma spec_current_total_foldr (file_stats : gmap string FileContribution) :
  spec_current_total file_stats
  = foldr (fun kv total => len (current_lines kv.2) + total) 0 (map_to_list file_stats).
Proof.
  unfold spec_current_total. rewrite map_fold_foldr.
  induction (map_to_list file_stats) as [|[k x] l IH]; cbn; [done|]. by rewrite IH.
Qed.

Lemma spec_historical_total_foldr (file_stats : gmap string FileContribution) :
  spec_historical_total file_stats
  = foldr (fun kv total => historical_lines kv.2 + total) 0 (map_to_list file_stats).
Proof.
  unfold spec_historical_total. rewrite map_fold_foldr.
  induction (map_to_list file_stats) as [|[k x] l IH]; cbn; [done|]. by rewrite IH.
Qed.

(** X21.  The section of the current lines lists the files in which the
    contributor has current lines, and no other, by descending number of
    lines; the numbers it shows add up to the contributor's current
    total. *)
Theorem current_section_spec (file_stats : gmap string FileContribution)
    (items : list (string * FileContribution)) :
  items ≡ₚ map_to_list file_stats →
  (∀ f n d ss,
     (f, n, d, ss) ∈ current_section items ↔
     ∃ stats, file_stats !! f = Some stats ∧ current_lines stats ≠ []
              ∧ n = len (current_lines stats)
              ∧ d = (if Py.truthy (fc_last_modified stats)
                     then fc_last_modified stats else None)
              ∧ ss = samples stats)
  ∧ StronglySorted (fun x y => y.1.1.2 ≤ x.1.1.2) (current_section items)
  ∧ py_sum (map (fun x => x.1.1.2) (current_section items))
    = spec_current_total file_stats.
Proof.
  intros Hitems. unfold current_section. cbv zeta.
  set (F := fun '(file_path, stats) => _).
  set (l := sorted_by_desc _ _).
  assert (l ≡ₚ map_to_list file_stats) as Hp
    by (rewrite <-Hitems; apply sorted_by_desc_perm).
  split_and!.
  - intros f n d ss. rewrite list_elem_of_omap. split.
    + intros ([f' stats] & Hin & HF). rewrite Hp in Hin.
      apply elem_of_map_to_list in Hin. subst F. cbn in HF.
      destruct (current_lines stats) eqn:Hl; [done|]. injection HF as -> <- <- <-.
      exists stats. rewrite Hl. by split_and!.
    + intros (stats & Hf & Hne & -> & -> & ->). exists (f, stats). split.
      * rewrite Hp. by apply elem_of_map_to_list.
      * subst F. cbn. by destruct (current_lines stats).
  - eapply omap_sorted; [|apply sorted_by_desc_sorted].
    intros [f1 s1] [f2 s2] x' y' H1 H2 Hle. subst F. cbn in *.
    destruct (current_lines s1), (current_lines s2); try done;
      injection H1 as <-; injection H2 as <-; cbn in *; done.
  - rewrite py_sum_foldr.
    rewrite spec_current_total_foldr.
    rewrite <-(foldr_sum_perm (fun kv => len (current_lines kv.2)) _ _ Hp).
    clear Hp. induction l as [|[f stats] l IH].
    + done.
    + cbn [omap list_omap foldr]. unfold F at 1.
      destruct (current_lines stats) eqn:Hl.
      * rewrite IH. cbn. rewrite Hl. done.
      * cbn [foldr]. rewrite IH. cbn. rewrite Hl. done.
  Unshelve. all: exact 0.
Qed.

(** X22.  The section of the historical contributions lists the files in which
    the contributor has a positive count, and no other, by descending
    count; when no count is negative, the counts it shows add up to the
    contributor's historical total. *)
Theorem historical_section_spec (file_stats : gmap string FileContribution)
    (items : list (string * FileContribution)) :
  items ≡ₚ map_to_list file_stats →
  (∀ f h,
     (f, h) ∈ historical_section items ↔
     ∃ stats, file_stats !! f = Some stats ∧ 0 < h ∧ h = historical_lines stats)
  ∧ StronglySorted (fun x y => y.2 ≤ x.2) (historical_section items)
  ∧ ((∀ f stats, file_stats !! f = Some stats → 0 ≤ historical_lines stats) →
     py_sum (map snd (historical_section items))
     = spec_historical_total file_stats).
Proof.
  intros Hitems. unfold historical_section. cbv zeta.
  set (F := fun '(file_path, stats) => _).
  set (l := sorted_by_desc _ _).
  assert (l ≡ₚ map_to_list file_stats) as Hp
    by (rewrite <-Hitems; apply sorted_by_desc_perm).
  split_and!.
  - intros f h. rewrite list_elem_of_omap. split.
    + intros ([f' stats] & Hin & HF). rewrite Hp in Hin.
      apply elem_of_map_to_list in Hin. subst F. cbn in HF.
      destruct (Z.ltb_spec 0 (historical_lines stats)); [|done].
      injection HF as -> <-. by exists stats.
    + intros (stats & Hf & Hpos & ->). exists (f, stats). split.
      * rewrite Hp. by apply elem_of_map_to_list.
      * subst F. cbn. by destruct (Z.ltb_spec 0 (historical_lines stats)); [|lia].
  - eapply omap_sorted; [|apply sorted_by_desc_sorted].
    intros [f1 s1] [f2 s2] x' y' H1 H2 Hle. subst F. cbn in *.
    destruct (0 <? historical_lines s1), (0 <? historical_lines s2); try done.
    injection H1 as <-; injection H2 as <-. done.
  - intros Hnonneg. rewrite py_sum_foldr.
    rewrite spec_historical_total_foldr.
    rewrite <-(foldr_sum_perm (fun kv => historical_lines kv.2) _ _ Hp).
    assert (∀ kv, kv ∈ l → 0 ≤ historical_lines kv.2) as Hall.
    { intros [f stats] Hin. rewrite Hp in Hin. apply elem_of_map_to_list in Hin.
      by eapply Hnonneg. }
    clear Hp. induction l as [|[f stats] l IH]; [done|].
    cbn [omap list_omap foldr]. unfold F at 1.
    pose proof (Hall (f, stats) ltac:(left)) as H0. cbn in H0.
    assert (∀ kv, kv ∈ l → 0 ≤ historical_lines kv.2) as Hall'
      by (intros kv Hkv; apply Hall; by right).
    destruct (Z.ltb_spec 0 (historical_lines stats)).
    + cbn [foldr]. rewrite IH by done. done.
    + rewrite IH by done. cbn. lia.
Qed.

(** ** The output path, and the run as a whole *)

Lemma split_no_sep (sep : ascii) (s : string) :
  Py.mem sep s = false → Py.split sep s = [s].
Proof.
  induction s as [|c s IH]; [done|]. cbn. rewrite Ascii.eqb_sym.
  intros [Hc Hs]%orb_false_iff. rewrite Hc, IH by done. done.
Qed.

(** Text without a separator, appended to [s], goes to the last piece. *)
Lemma split_app_last (sep : ascii) (s ext : string) :
  Py.mem sep ext = false →
  ∃ pieces w, Py.split sep s = pieces ++ [w]
              ∧ Py.split sep (s +:+ ext) = pieces ++ [w +:+ ext].
Proof.
  intros Hext. induction s as [|c s (pieces & w & H1 & H2)]; cbn.
  - exists [], "". by rewrite split_no_sep.
  - rewrite H1, H2. destruct (Ascii.eqb c sep).
    + by exists ("" :: pieces), w.
    + destruct pieces as [|p pieces]; cbn.
      * by exists [], (String c w).
      * by exists (String c p :: pieces), w.
Qed.

Lemma basename_app (path ext : string) :
  Py.mem "/" ext = false → basename (path +:+ ext) = basename path +:+ ext.
Proof.
  intros Hext. unfold basename.
  destruct (split_app_last "/" path ext Hext) as (pieces & w & -> & ->).
  by rewrite !last_snoc.
Qed.

Lemma contains_app_r (sub s t : string) :
  Py.contains sub t = true → Py.contains sub (s +:+ t) = true.
Proof.
  intros H. induction s as [|c s IH]; [done|]. cbn. rewrite IH. apply orb_true_r.
Qed.

(** X23.  The path of the report always has a dot in its file name; it is the
    path given, or that path with the extension of the format; and a path
    that [main] has completed is left as it is when given again. *)
Theorem output_file_has_extension (args : Args) :
  Py.contains "." (basename (output_file_of args)) = true
  ∧ (output_file_of args = a_output args
     ∨ output_file_of args = a_output args +:+ "." +:+ format_name (a_format args))
  ∧ ∀ args', a_output args' = output_file_of args →
             output_file_of args' = output_file_of args.
Proof.
  assert (Py.contains "." (basename (output_file_of args)) = true) as Hdot.
  { unfold output_file_of.
    destruct (Py.contains "." (basename (a_output args))) eqn:H; cbn [negb]; [done|].
    destruct (a_format args); rewrite basename_app by done;
      by apply contains_app_r. }
  split_and!; [done| |].
  - unfold output_file_of.
    destruct (negb _); [right|by left]. by destruct (a_format args).
  - intros args' H. unfold output_file_of at 1. rewrite H, Hdot. done.
Qed.

Section MainMore.

Variable fnmatch : string → string → bool.
Variable parseaddr : string → string.
Variable format_date : Z → option string.
Variable cpu_count : nat.
Variable now : string.
Variable git_ls_files : string → exn + string.
Variables git_rev_list git_blame git_log : string * list string * string → exn + string.

#[local] Abbreviation analyze :=
  (analyze_repository fnmatch parseaddr format_date cpu_count git_ls_files
                      git_rev_list git_blame git_log).
#[local] Abbreviation run :=
  (main fnmatch parseaddr format_date cpu_count now git_ls_files
        git_rev_list git_blame git_log).

(** The analysis prints its own messages and writes no file; it raises
    exactly the exception of the listing, when that is not
    [CalledProcessError]. *)
Lemma analyze_repository_trace pool_order (self : GitContributorAnalyzer)
    (file_extensions : option (gset string)) :
  forallb analysis_message (trace (analyze pool_order self file_extensions)) = true
  ∧ ∀ e, outcome (analyze pool_order self file_extensions) = inl e ↔
         git_ls_files (repo_path self) = inl e ∧ e ≠ CalledProcessError.
Proof.
  unfold analyze_repository.
  destruct (git_ls_files (repo_path self)) as [e0|out].
  - destruct e0; cbn; (split; [done|]); intros e;
      (split; [intros [= <-]|intros [[= <-] H]]; done).
  - unfold mbind, M_bind, emit. rewrite collect_spec. cbn. split.
    + rewrite forallb_app. cbn. rewrite andb_true_r.
      apply forallb_forall. intros ev (k & <- & _)%in_map_iff. done.
    + intros e. split; [done|]. by intros [[=] _].
Qed.

Lemma analysis_messages_written {A} (t : list event) (r : exn + A) :
  forallb analysis_message t = true → written (t, r) = [].
Proof.
  unfold written. cbn [trace fst]. induction t as [|ev t IH]; [done|].
  cbn. intros [Hev Ht]%andb_true_iff. rewrite IH by done. by destruct ev.
Qed.

Lemma analysis_messages_no_report (t : list event) (f : string) :
  forallb analysis_message t = true → Print (ReportWritten f) ∉ t.
Proof.
  intros Ht Hin. apply list_elem_of_In in Hin.
  by apply (proj1 (forallb_forall _ _) Ht) in Hin.
Qed.

Lemma written_app {A B} (t1 t2 : list event) (r1 : exn + A) (r2 : exn + B) :
  written (t1 ++ t2, r1) = written (t1, r2) ++ written (t2, r2).
Proof. unfold written. cbn [trace fst]. apply omap_app. Qed.

(** X24.  A run writes at most the report, at the path of [output_file_of].
    When it ends normally, its last two actions are the writing of the
    report and the message that announces it, and what comes before are
    messages of the analysis.  It raises only the exception of a listing
    that failed otherwise than by its exit status, having written nothing,
    or [TypeError] out of the CSV report, having left a report without
    rows; and it then announces no report. *)
Theorem main_announces_written_report pool_order (args : Args) :
  (∀ f doc, (f, doc) ∈ written (run pool_order args) → f = output_file_of args)
  ∧ (outcome (run pool_order args) = inr tt →
     ∃ pre doc,
       trace (run pool_order args)
       = pre ++ [WriteFile (output_file_of args) doc;
                 Print (ReportWritten (output_file_of args))]
       ∧ forallb analysis_message pre = true)
  ∧ (∀ e, outcome (run pool_order args) = inl e →
     (∀ f, Print (ReportWritten f) ∉ trace (run pool_order args))
     ∧ ((git_ls_files (a_repo_path args) = inl e ∧ e ≠ CalledProcessError
         ∧ written (run pool_order args) = [])
        ∨ (a_format args = csv ∧ e = TypeError
           ∧ written (run pool_order args)
             = [(output_file_of args, CsvReport [])]))).
Proof.
  unfold main.
  set (self := init _ _ _ _).
  set (exts := _ <$> comma_list (a_extensions args)).
  destruct (analyze_repository_trace pool_order self exts) as [Ht He].
  destruct (analyze pool_order self exts) as [t [e0|self']] eqn:Ha.
  all: cbn [trace outcome fst snd] in Ht, He.
  - (* the listing raised *)
    destruct (proj1 (He e0) eq_refl) as [Hls Hne].
    unfold mbind, M_bind. cbn [trace outcome fst snd].
    rewrite (analysis_messages_written t _ Ht). split_and!.
    + intros f doc Hin. by apply elem_of_nil in Hin.
    + done.
    + intros e [= <-]. split; [intros f; by apply analysis_messages_no_report|].
      by left.
  - (* the analysis returned *)
    destruct (generate_report_faithful now self' (output_file_of args)
                (format_name (a_format args)) (a_no_sample_code args))
      as (doc & r & Hgen & _).
    unfold mbind, M_bind. rewrite Hgen. destruct r as [e|[]].
    + (* the report raised *)
      cbn [trace outcome fst snd].
      rewrite (written_app t _ _ (inl e : exn + unit)).
      rewrite (analysis_messages_written t _ Ht). cbn [app].
      assert (a_format args = csv ∧ e = TypeError ∧ doc = CsvReport []) as (Hf & -> & ->).
      { revert Hgen. unfold generate_report.
        destruct (a_format args); cbn [format_name String.eqb Ascii.eqb Bool.eqb];
          [by intros [=]..|].
        unfold _generate_csv_report.
        pose proof (sorted_authors_raises (keys (contributor_stats self'))) as Hs.
        destruct (sorted_authors _) as [e'|authors]; [|by intros [=]].
        destruct Hs as [-> _]. by intros [= <- <-]. }
      split_and!.
      * intros f doc' Hin. apply list_elem_of_singleton in Hin. by injection Hin as -> _.
      * done.
      * intros e' [= <-]. split.
        -- intros f Hin. apply elem_of_app in Hin as [Hin|Hin].
           ++ by apply analysis_messages_no_report in Hin.
           ++ by apply list_elem_of_singleton in Hin.
        -- right. done.
    + cbn [trace outcome fst snd emit].
      rewrite (written_app t _ _ (inr tt : exn + unit)).
      rewrite (analysis_messages_written t _ Ht). cbn [app]. split_and!.
      * intros f doc' Hin. apply list_elem_of_singleton in Hin. by injection Hin as -> _.
      * intros _. by exists t, doc.
      * done.
Qed.

End MainMore.

(** ** The further properties on the sample repository *)

Lemma process_file_lines_have_text_and_author_witness :
  line_text (0, "foo", Some "2024-01-01") ≠ ""
  ∧ ∃ name, Some "Ann" = Some name ∧ name ≠ "".
Proof.
  apply (process_file_lines_have_text_and_author Sample.format_date
           Sample.git_rev_list Sample.git_blame Sample.git_log
           ("repo", ["HEAD"], "f.py") (Some "Ann")
           ([(0, "foo", Some "2024-01-01")], 1, Some "2024-01-01", Some "ann@x.org")).
  - by vm_compute.
  - apply list_elem_of_In. vm_compute. by left.
Defined.

Lemma process_file_entry_date_witness :
  let e : file_entry :=
    ([(0, "foo", Some "2024-01-01")], 1, Some "2024-01-01", Some "ann@x.org") in
  entry_date e = from_option line_date None (last (entry_lines e)).
Proof.
  intros e.
  apply (process_file_entry_date Sample.format_date Sample.git_rev_list
           Sample.git_blame Sample.git_log ("repo", ["HEAD"], "f.py") (Some "Ann") e).
  by vm_compute.
Defined.

Lemma process_file_total_additions_witness :
  sum_entries entry_count
    (process_file Sample.format_date Sample.git_rev_list Sample.git_blame
       Sample.git_log ("repo", ["HEAD"], "f.py")).2.2
  = foldr (fun line total => line_additions line + total) 0
          (Py.split "010" Sample.log_ann_bob).
Proof.
  apply (process_file_total_additions Sample.format_date Sample.git_rev_list
           Sample.git_blame Sample.git_log ("repo", ["HEAD"], "f.py")
           "0123abc" Sample.blame_ann Sample.log_ann_bob
           (mkBlame (Some "Ann") 1 (Some "foo") (Some "2024-01-01") (Some "ann@x.org")
              {[ Some "Ann" := ([(0, "foo", Some "2024-01-01")], 0,
                                Some "2024-01-01", Some "ann@x.org") ]}));
    try reflexivity; by vm_compute.
Defined.

Lemma init_exclude_paths_stripped_witness :
  Py.strip "/" "vendor" = "vendor"
  ∧ ∃ p, p ∈ default [] (Some ["vendor/"]) ∧ "vendor" = Py.strip "/" p
         ∧ Py.strip_ws p ≠ "".
Proof.
  apply (init_exclude_paths_stripped "repo" None (Some ["vendor/"]) None "vendor").
  apply list_elem_of_In. vm_compute. by left.
Defined.

Lemma file_under_exclude_path_is_excluded_witness :
  should_exclude_file Sample.fnmatch Sample.analyzer "vendor/g.py" = true.
Proof.
  apply (file_under_exclude_path_is_excluded Sample.fnmatch Sample.analyzer
           "vendor" "vendor/g.py").
  - apply list_elem_of_In. vm_compute. by left.
  - reflexivity.
  - right. by exists "g.py".
Defined.

Lemma emails_consistent_init (parseaddr : string → string) (repo : string)
    (commits paths patterns : option (list string)) :
  emails_consistent parseaddr (init repo commits paths patterns).
Proof.
  intros a. cbn [init contributor_emails contributor_companies].
  split; intros *; by rewrite lookup_empty.
Qed.

Lemma analyze_repository_emails_consistent_witness :
  emails_consistent Sample.parseaddr Sample.analyzed.
Proof.
  apply (analyze_repository_emails_consistent Sample.fnmatch Sample.parseaddr
           Sample.format_date 4 Sample.git_ls_files Sample.git_rev_list
           Sample.git_blame Sample.git_log Sample.pool_order
           Sample.analyzer Sample.analyzed None).
  - apply emails_consistent_init.
  - reflexivity.
Defined.

Lemma file_without_extension_has_no_record_witness :
  absent "README" Sample.analyzed.
Proof.
  apply (file_without_extension_has_no_record Sample.fnmatch Sample.parseaddr
           Sample.format_date 4 Sample.git_ls_files Sample.git_rev_list
           Sample.git_blame Sample.git_log Sample.pool_order
           Sample.analyzer Sample.analyzed {[ ".py" ]} "README" pool_order_perm).
  - intros a by_file H. vm_compute in H. discriminate.
  - apply non_empty_singleton_L.
  - intros ext ->%elem_of_singleton. reflexivity.
  - by vm_compute.
Defined.


Lemma merge_file_twice_witness :
  let e : file_entry :=
    ([(0, "foo", Some "2024-01-01")], 1, Some "2024-01-01", Some "ann@x.org") in
  let res : file_results := {[ Some "Ann" := e ]} in
  ∃ by_file c,
    contributor_stats
      (merge_file Sample.parseaddr
         (merge_file Sample.parseaddr Sample.analyzer ("f.py", res)) ("f.py", res))
      !! Some "Ann" = Some by_file
    ∧ by_file !! "f.py" = Some c
    ∧ len (current_lines c) = 2 * len (entry_lines e)
    ∧ historical_lines c = entry_count e.
Proof.
  intros e res.
  apply (merge_file_twice Sample.parseaddr Sample.analyzer "f.py" res (Some "Ann") e).
  - by vm_compute.
  - by vm_compute.
Defined.

Lemma csv_report_raises_iff_witness :
  _generate_csv_report
    (mkAnalyzer "repo" [] [] [] {[ None := ∅; Some "Ann" := ∅ ]} ∅ ∅) "out.csv"
  = ([WriteFile "out.csv" (CsvReport [])], inl TypeError)
  ∧ outcome (_generate_csv_report Sample.analyzed "out.csv") = inr tt.
Proof.
  split.
  - apply (proj1 (csv_report_raises_iff _ "out.csv")). split.
    + eexists. by vm_compute.
    + vm_compute. lia.
  - apply (proj2 (csv_report_raises_iff Sample.analyzed "out.csv")).
    left. by vm_compute.
Defined.

Lemma csv_report_rows_sorted_witness :
  ∃ rows names,
    _generate_csv_report Sample.analyzed "out.csv"
      = ([WriteFile "out.csv" (CsvReport rows)], inr tt)
    ∧ csv_name <$> rows = Some <$> names
    ∧ Sorted String.le names ∧ NoDup names
    ∧ ∀ name, name ∈ names ↔ is_Some (contributor_stats Sample.analyzed !! Some name).
Proof.
  apply (csv_report_rows_sorted Sample.analyzed "out.csv"). by vm_compute.
Defined.

Lemma current_section_spec_witness :
  let stats :=
    mkFileContribution [mkLineInfo "foo" 0 (Some "2024-01-01")] 1
                       (Some "2024-01-01") (Some "ann@x.org") in
  py_sum (map (fun x => x.1.1.2) (current_section [("f.py", stats)]))
  = spec_current_total {[ "f.py" := stats ]}.
Proof.
  intros stats.
  apply (current_section_spec {[ "f.py" := stats ]} [("f.py", stats)]).
  by rewrite map_to_list_singleton.
Defined.

Lemma historical_section_spec_witness :
  let stats := mkFileContribution [] 2 None (Some "bob@y.org") in
  py_sum (map snd (historical_section [("f.py", stats)]))
  = spec_historical_total {[ "f.py" := stats ]}.
Proof.
  intros stats.
  apply (historical_section_spec {[ "f.py" := stats ]} [("f.py", stats)]).
  - by rewrite map_to_list_singleton.
  - intros f c [_ <-]%lookup_singleton_Some. cbn. lia.
Defined.

Lemma output_file_has_extension_witness :
  output_file_of (Sample.args json) = "out.json"
  ∧ ∀ args', a_output args' = "out.json" → output_file_of args' = "out.json".
Proof.
  split; [reflexivity|].
  apply (proj2 (proj2 (output_file_has_extension (Sample.args json)))).
Defined.

Lemma main_announces_written_report_witness :
  ∃ pre doc,
    trace (main Sample.fnmatch Sample.parseaddr Sample.format_date 4 "now"
             Sample.git_ls_files Sample.git_rev_list Sample.git_blame Sample.git_log
             Sample.pool_order (Sample.args json))
    = pre ++ [WriteFile "out.json" doc; Print (ReportWritten "out.json")]
    ∧ forallb analysis_message pre = true.
Proof.
  apply (proj1 (proj2 (main_announces_written_report Sample.fnmatch Sample.parseaddr
                         Sample.format_date 4 "now" Sample.git_ls_files
                         Sample.git_rev_list Sample.git_blame Sample.git_log
                         Sample.pool_order (Sample.args json)))).
  by vm_compute.
Defined.

Lemma get_revision_range_init_witness :
  "^" ∈ get_revision_range (init "repo" (Some ["0123abc"; " "]) None None).
Proof.
  apply (proj2 (get_revision_range_init "repo" (Some ["0123abc"; " "]) None None) " ").
  - apply list_elem_of_In. vm_compute. right. by left.
  - reflexivity.
Defined.

Lemma empty_extension_keeps_every_file_witness :
  keep_file Sample.fnmatch Sample.analyzer (Some {[ ".py"; "" ]}) "README"
  = keep_file Sample.fnmatch Sample.analyzer None "README".
Proof.
  apply (empty_extension_keeps_every_file Sample.fnmatch Sample.analyzer
           {[ ".py"; "" ]} "README").
  apply elem_of_union. right. by apply elem_of_singleton.
Defined.

Lemma analyze_repository_only_adds_witness :
  grows Sample.analyzer Sample.analyzed.
Proof.
  apply (analyze_repository_only_adds Sample.fnmatch Sample.parseaddr
           Sample.format_date 4 Sample.git_ls_files Sample.git_rev_list
           Sample.git_blame Sample.git_log Sample.pool_order
           Sample.analyzer Sample.analyzed None).
  reflexivity.
Defined.
